(** * feedtrigger: the poll cycle of an Atom/RSS feed, and its store discipline

    A shallow embedding of package [feedtrigger] (the library part of
    src/cmd/gh-repos-mon/main.go): the data types [Feed], [FeedHead] and
    [FeedAction], the constructors [NewFeed] and [New], and the method
    [run], which performs one poll cycle of one feed.

    [run] talks to three collaborators that live outside the package: the
    feed parser (gofeed), the key-value store (gokv) and the callback of
    the feed.  They are modelled by what [run] can observe of them:
    - the parser is a function from a URL to a list of items or an error;
    - the store is a finite map from keys to head records, together with
      the list of failures its next calls will report (a failed call leaves
      the map as it was);
    - a callback reads one item, acts on a state [W] of its own and may
      return an error.  It neither changes the items nor reaches the store
      or the mutex of the application.
    Items are values: the parser hands out no nil entry.

    Every operation of [run] on a collaborator is recorded as an [Event], so
    that statements can speak about what a cycle did, and in which order. *)

From Stdlib Require Import ZArith Ascii String List Lia.
From stdpp Require Import base option list gmap strings.

Open Scope string_scope.

(** ** Errors

    A Go [error] is either a plain one or one made by
    [fmt.Errorf("<msg>: %w", err)], which keeps the wrapped error. *)

Inductive error : Type :=
| errorString (s : string)
| wrapError (msg : string) (err : error).

(** [fmt.Errorf(msg ++ ": %w", err)] *)
Definition Errorf_w (msg : string) (err : error) : error := wrapError msg err.

(** The [Error()] method: the message of a wrapped error is the prefix, a
    colon and the message of the error inside. *)
Fixpoint Error (e : error) : string :=
  match e with
  | errorString s => s
  | wrapError msg err => msg ++ ": " ++ Error err
  end.

(** ** Durations: [time.Duration] is an int64 count of nanoseconds *)

Module time.
Definition Duration : Type := Z.
Definition Nanosecond : Duration := 1%Z.
Definition Microsecond : Duration := (1000 * Nanosecond)%Z.
Definition Millisecond : Duration := (1000 * Microsecond)%Z.
Definition Second : Duration := (1000 * Millisecond)%Z.
Definition Minute : Duration := (60 * Second)%Z.
Definition maxDuration : Duration := (2 ^ 63 - 1)%Z.
End time.

(** ** Items and head records *)

(** [gofeed.Person] *)
Record Person : Type := mkPerson {
  Name : string;
  Email : string
}.

(** The fields of [gofeed.Item] that the package reads. *)
Record Item : Type := mkItem {
  Item_Title : string;
  Item_Updated : string;
  Item_Published : string;
  Item_Link : string;
  Item_Author : option Person
}.

(** [FeedHead] is the top item of the feed, as kept in the store. *)
Record FeedHead : Type := mkFeedHead {
  Title : string;
  Updated : string;
  Published : string
}.

(** The zero value of [FeedHead] ([var head FeedHead]). *)
Definition zeroFeedHead : FeedHead := mkFeedHead "" "" "".

(** The composite literal of [run]:
    [&FeedHead{Title: zitem.Title, Updated: zitem.Updated,
               Published: zitem.Published}] *)
Definition headOf (zitem : Item) : FeedHead :=
  {| Title := Item_Title zitem;
     Updated := Item_Updated zitem;
     Published := Item_Published zitem |}.

#[global] Instance error_eq_dec : EqDecision error.
Proof. solve_decision. Defined.
#[global] Instance Person_eq_dec : EqDecision Person.
Proof. solve_decision. Defined.
#[global] Instance Item_eq_dec : EqDecision Item.
Proof. solve_decision. Defined.
#[global] Instance FeedHead_eq_dec : EqDecision FeedHead.
Proof. solve_decision. Defined.

(** ** The store: [gokv.Store]

    [data] is what the store holds.  [faults] lists what its next calls
    will report, one entry per call of [Get] or [Set]: [Some err] makes
    the call fail with [err], [None] (or no entry at all) lets it go
    through. *)

Record KVStore : Type := mkStore {
  data : gmap string FeedHead;
  faults : list (option error)
}.

(** The failure of the next call, and the store once that call is over. *)
Definition nextFault (s : KVStore) : option error :=
  match faults s with
  | fault :: _ => fault
  | [] => None
  end.

Definition afterCall (s : KVStore) (d : gmap string FeedHead) : KVStore :=
  {| data := d; faults := tail (faults s) |}.

(** [found, err := s.Get(k, &v)]: the value read (or [v] untouched), whether
    the key was found, and the error. *)
Definition Get (s : KVStore) (k : string) (v : FeedHead)
  : KVStore * (FeedHead * bool * option error) :=
  match nextFault s with
  | Some err => (afterCall s (data s), (v, false, Some err))
  | None =>
      match data s !! k with
      | Some h => (afterCall s (data s), (h, true, None))
      | None => (afterCall s (data s), (v, false, None))
      end
  end.

(** [err := s.Set(k, v)] *)
Definition Set_ (s : KVStore) (k : string) (v : FeedHead)
  : KVStore * option error :=
  match nextFault s with
  | Some err => (afterCall s (data s), Some err)
  | None => (afterCall s (<[k := v]> (data s)), None)
  end.

(** ** Events and outcomes *)

(** One entry per call that leaves the body of [run]. *)
Inductive Event : Type :=
| EvFetch (url : string)                       (* ParseURLWithContext(url, ctx) *)
| EvGet (key : string)                         (* a.Store.Get(key, &head) *)
| EvSet (key : string) (v : FeedHead) (err : option error)
                                               (* a.Store.Set(key, v), and its result *)
| EvLock                                       (* a.Lock() returned *)
| EvUnlock                                     (* a.Unlock() *)
| EvCall (item : Item) (err : option error).   (* f.OnNewRecord(item), and its result *)

(** How a piece of the body ends: it goes on with a value, it makes the
    function return an error, it panics, or it parks the goroutine for
    good ([Lock] on a mutex that nobody will release). *)
Inductive result (A : Type) : Type :=
| Val (a : A)
| Return (err : error)
| Panic (msg : string)
| Blocked.

Arguments Val {A} a.
Arguments Return {A} err.
Arguments Panic {A} msg.
Arguments Blocked {A}.

(** ** Feeds and the application *)

Section Feedtrigger.

Context {W : Type}.

(** [NewItemAction] is triggered when a new item is available. *)
Definition NewItemAction : Type := Item -> W -> W * option error.

(** [Feed] to poll (Atom/RSS). *)
Record Feed : Type := mkFeed {
  URL : string;
  OnNewRecord : NewItemAction;
  RefreshPeriod : time.Duration
}.

(** [NewFeed] returns a feed by URL with default refresh period of 1
    minute. *)
Definition NewFeed (url : string) (action : NewItemAction) : Feed :=
  {| URL := url;
     OnNewRecord := action;
     RefreshPeriod := (1 * time.Minute)%Z |}.

(** [FeedAction] is the main configuration struct; [Mutex] is the embedded
    [sync.Mutex], [true] while it is held. *)
Record FeedAction : Type := mkFeedAction {
  Store : KVStore;
  Feeds : list Feed;
  Mutex : bool
}.

(** [New], the application builder.  [s] is the store handed in ([None] for
    the nil interface) and [bbolt_NewStore] what
    [bbolt.NewStore(bbolt.DefaultOptions)] returns when it is called. *)
Definition New (bbolt_NewStore : unit -> KVStore * option error)
    (s : option KVStore) (ff : list Feed) : option FeedAction * option error :=
  match s with
  | Some store =>
      (Some {| Store := store; Feeds := ff; Mutex := false |}, None)
  | None =>
      match bbolt_NewStore tt with
      | (_, Some err) => (None, Some (Errorf_w "bbolt.NewStore" err))
      | (store, None) =>
          (Some {| Store := store; Feeds := ff; Mutex := false |}, None)
      end
  end.

(** ** The monad of [run] *)

(** The state [run] works on: the application behind the receiver [a], and
    the state the callbacks act on. *)
Record World : Type := mkWorld {
  app : FeedAction;
  outside : W
}.

Record Out (A : Type) : Type := mkOut {
  res : result A;
  final : World;
  trace : list Event
}.

Arguments mkOut {A} res final trace.
Arguments res {A} o.
Arguments final {A} o.
Arguments trace {A} o.

Definition M (A : Type) : Type := World -> Out A.

Definition ret {A : Type} (a : A) : M A :=
  fun w => mkOut (Val a) w [].

Definition bind {A B : Type} (c : M A) (k : A -> M B) : M B :=
  fun w =>
    let o := c w in
    match res o with
    | Val a =>
        let o' := k a (final o) in
        mkOut (res o') (final o') (trace o ++ trace o')
    | Return err => mkOut (Return err) (final o) (trace o)
    | Panic msg => mkOut (Panic msg) (final o) (trace o)
    | Blocked => mkOut Blocked (final o) (trace o)
    end.

(** [return err] with a non-nil [err] *)
Definition return_err {A : Type} (err : error) : M A :=
  fun w => mkOut (Return err) w [].

Definition panic {A : Type} (msg : string) : M A :=
  fun w => mkOut (Panic msg) w [].

Definition emit (ev : Event) : M unit :=
  fun w => mkOut (Val tt) w [ev].

Definition getApp : M FeedAction :=
  fun w => mkOut (Val (app w)) w [].

Definition putApp (a : FeedAction) : M unit :=
  fun w => mkOut (Val tt) {| app := a; outside := outside w |} [].

End Feedtrigger.

Arguments Feed : clear implicits.
Arguments FeedAction : clear implicits.
Arguments NewItemAction : clear implicits.
Arguments World : clear implicits.
Arguments Out : clear implicits.
Arguments M : clear implicits.
Arguments mkOut {W A} res final trace.
Arguments res {W A} o.
Arguments final {W A} o.
Arguments trace {W A} o.

Declare Scope go_scope.
Delimit Scope go_scope with go.

Notation "'let*' x ':=' c 'in' k" := (bind c (fun x => k))
  (at level 10, x name, c at level 100, k at level 200) : go_scope.
Notation "c ';;;' k" := (bind c (fun _ => k))
  (at level 100, k at level 200, right associativity) : go_scope.

Section Poll.

Context {W : Type}.

Local Open Scope go_scope.

(** [feed.Items[i]] raises a run-time panic when [i] is out of range. *)
Definition index (items : list Item) (i : nat) : M W Item :=
  match items !! i with
  | Some item => ret item
  | None => panic "runtime error: index out of range"
  end.

(** [gofeed.NewParser().ParseURLWithContext(url, ctx)]: [net] is what the
    network and the parser answer for a URL (an error also when [ctx] is
    cancelled). *)
Definition ParseURLWithContext (net : string -> list Item * option error)
    (url : string) : M W (list Item * option error) :=
  emit (EvFetch url) ;;; ret (net url).

(** [a.Store.Get(key, &head)] *)
Definition Store_Get (key : string) (head : FeedHead)
  : M W (FeedHead * bool * option error) :=
  let* a := getApp in
  let '(s, r) := Get (Store a) key head in
  putApp {| Store := s; Feeds := Feeds a; Mutex := Mutex a |} ;;;
  emit (EvGet key) ;;;
  ret r.

(** [a.Store.Set(key, v)] *)
Definition Store_Set (key : string) (v : FeedHead) : M W (option error) :=
  let* a := getApp in
  let '(s, err) := Set_ (Store a) key v in
  putApp {| Store := s; Feeds := Feeds a; Mutex := Mutex a |} ;;;
  emit (EvSet key v err) ;;;
  ret err.

(** [a.Lock()]: taken when free; on a held mutex the caller waits, and in
    one cycle taken alone nobody comes to release it. *)
Definition Lock : M W unit :=
  let* a := getApp in
  if Mutex a then (fun w => mkOut Blocked w [])
  else
    putApp {| Store := Store a; Feeds := Feeds a; Mutex := true |} ;;;
    emit EvLock.

(** [a.Unlock()]: it is a fatal error to unlock a mutex that is not held. *)
Definition Unlock : M W unit :=
  let* a := getApp in
  if Mutex a then
    putApp {| Store := Store a; Feeds := Feeds a; Mutex := false |} ;;;
    emit EvUnlock
  else panic "fatal error: sync: unlock of unlocked mutex".

(** [f.OnNewRecord(item)] *)
Definition call (f : Feed W) (item : Item) : M W (option error) :=
  fun w =>
    let '(o, err) := OnNewRecord f item (outside w) in
    mkOut (Val err) {| app := app w; outside := o |} [EvCall item err].

(** The loop of [run],
    [for i := 0; i < len(feed.Items); i++ { ... }],
    as a recursion on the items from index [i] on: [break] and the end of
    the list both leave the loop, an error of the callback leaves [run]. *)
Fixpoint scan (f : Feed W) (head : FeedHead) (items : list Item) : M W unit :=
  match items with
  | [] => ret tt
  | item :: rest =>
      if negb (String.eqb (Title head) (Item_Title item)) then
        let* err := call f item in
        match err with
        | Some e => return_err (Errorf_w "trigger func" e)
        | None => scan f head rest
        end
      else ret tt
  end.

(** [func (a *FeedAction) run(ctx context.Context, f Feed) error] *)
Definition run (net : string -> list Item * option error) (f : Feed W)
  : M W unit :=
  let* fetched := ParseURLWithContext net (URL f) in
  let '(items, err) := fetched in
  match err with
  | Some e => return_err (Errorf_w "fetching feed" e)
  | None =>
      let* zitem := index items 0 in
      let* got := Store_Get (URL f) zeroFeedHead in
      let '(head, found, err) := got in
      match err with
      | Some e => return_err (Errorf_w "get from store" e)
      | None =>
          if negb found then (* first run *)
            Lock ;;;
            let* err := Store_Set (URL f) (headOf zitem) in
            match err with
            | Some e => return_err (Errorf_w "storing" e)
            | None => Unlock ;;; ret tt
            end
          else
            scan f head items ;;;
            Lock ;;;
            let* err := Store_Set (URL f) (headOf zitem) in
            match err with
            | Some e => return_err (Errorf_w "storing head" e)
            | None => Unlock ;;; ret tt
            end
      end
  end.

End Poll.

(** ** Reading a trace *)

(** The items the callback was invoked on, in the order of the calls. *)
Fixpoint calls (tr : list Event) : list Item :=
  match tr with
  | [] => []
  | EvCall item _ :: tr' => item :: calls tr'
  | _ :: tr' => calls tr'
  end.

(** The errors the callback returned. *)
Fixpoint failures (tr : list Event) : list error :=
  match tr with
  | [] => []
  | EvCall _ (Some e) :: tr' => e :: failures tr'
  | _ :: tr' => failures tr'
  end.

(** The calls of [Set]: key and value, whatever the result. *)
Fixpoint writes (tr : list Event) : list (string * FeedHead) :=
  match tr with
  | [] => []
  | EvSet k v _ :: tr' => (k, v) :: writes tr'
  | _ :: tr' => writes tr'
  end.

(** The key of a store call. *)
Definition storeKey (ev : Event) : option string :=
  match ev with
  | EvGet k => Some k
  | EvSet k _ _ => Some k
  | _ => None
  end.

(** What the store of the application holds in a world. *)
Definition markers {W : Type} (w : World W) : gmap string FeedHead :=
  data (Store (app w)).

(** The test of the loop, as a proposition on an item. *)
Definition isNew (head : FeedHead) (item : Item) : Prop :=
  Item_Title item <> Title head.

(** ** Names for parts of a cycle, used in the statements and proofs *)

Section Parts.

Context {W : Type}.
Implicit Types (f : Feed W) (w : World W) (head : FeedHead) (items : list Item).

Local Open Scope go_scope.

(** The last step of both branches of [run]: take the mutex, store the head
    built from [zitem], release the mutex.  The branches differ in the text
    of the error only. *)
Definition storeHead f (zitem : Item) (msg : string) : M W unit :=
  Lock ;;;
  let* err := Store_Set (URL f) (headOf zitem) in
  match err with
  | Some e => return_err (Errorf_w msg e)
  | None => Unlock ;;; ret tt
  end.

(** The world once [Get] has been called: one entry of [faults] is used up. *)
Definition afterGet w : World W :=
  {| app := {| Store := afterCall (Store (app w)) (markers w);
               Feeds := Feeds (app w); Mutex := Mutex (app w) |};
     outside := outside w |}.

Local Close Scope go_scope.
Local Open Scope list_scope.

(** What the loop does, by the way it ends. *)
Definition scanned f head items (o : Out W unit) (n : nat) : Prop :=
  n <= length items /\
  calls (trace o) = take n items /\
  Forall (isNew head) (take n items) /\
  match res o with
  | Val _ =>
      failures (trace o) = [] /\
      (forall item, items !! n = Some item -> Item_Title item = Title head)
  | Return err =>
      exists e m item,
        n = S m /\ items !! m = Some item /\
        err = Errorf_w "trigger func" e /\ failures (trace o) = [e]
  | _ => False
  end.

End Parts.

(** A store none of whose calls to come fails. *)
Definition healthy (s : KVStore) : Prop := Forall (fun fault => fault = None) (faults s).

(** ** Concrete feeds, stores and callbacks, for the examples below *)

Module Sample.

Definition url : string := "https://example.org/commits.atom".
Definition other : string := "https://example.org/releases.atom".

(** An item with the given title and [updated] stamp. *)
Definition entry (title stamp : string) : Item :=
  {| Item_Title := title; Item_Updated := stamp; Item_Published := "p-" ++ title;
     Item_Link := "https://example.org/" ++ title; Item_Author := None |}.

Definition A : Item := entry "A" "1".
Definition B : Item := entry "B" "2".
Definition C : Item := entry "C" "3".
(** [C] again, edited since: same title, later [updated] stamp. *)
Definition C_edited : Item := entry "C" "4".
Definition X : Item := entry "X" "0".

(** A parser that answers [items] for every URL. *)
Definition serving (items : list Item) : string -> list Item * option error :=
  fun _ => (items, None).

(** A callback that notes the title it was given and succeeds. *)
Definition note : NewItemAction (list string) :=
  fun item seen => ((seen ++ [Item_Title item])%list, None).

(** A callback that fails on the title [bad], and notes the others. *)
Definition failOn (bad : string) : NewItemAction (list string) :=
  fun item seen =>
    if String.eqb (Item_Title item) bad
    then (seen, Some (errorString "boom"))
    else ((seen ++ [Item_Title item])%list, None).

Definition feed (action : NewItemAction (list string)) : Feed (list string) :=
  NewFeed url action.

(** An application whose store holds [d] and will fail as [fs] says. *)
Definition world (d : gmap string FeedHead) (fs : list (option error))
  : World (list string) :=
  {| app := {| Store := {| data := d; faults := fs |}; Feeds := []; Mutex := false |};
     outside := [] |}.

Definition disk : error := errorString "disk full".

End Sample.

(** * The rest of the package

    What follows embeds the code around [run]: the goroutine that [Run]
    starts for a feed, and the callback [LogAuthorAndLink] with the
    [Person] it prints. *)

(** ** More to read in a trace *)

(** The number of fetches. *)
Fixpoint fetches (tr : list Event) : nat :=
  match tr with
  | [] => 0
  | EvFetch _ :: tr' => S (fetches tr')
  | _ :: tr' => fetches tr'
  end.

(** The events that are calls of the callback. *)
Definition isCallEv (ev : Event) : Prop :=
  match ev with
  | EvCall _ _ => True
  | _ => False
  end.

(** ** The goroutine of a feed

    [Run] hands to [g.Go], for every feed [f], the function
<<
      err := a.run(gctx, f) // fail early
      if err != nil { return err }
      for range time.NewTicker(f.RefreshPeriod).C {
        err := a.run(gctx, f)
        if err != nil { return err }
      }
      return nil
>>
    The channel of the ticker is seen as the list of its ticks; each tick
    comes with what the network answers at that time.  A ticker never
    closes its channel, so a finite list is the part of the run that has
    been watched: [Val tt] at its end stands for a goroutine that waits
    for the next tick. *)

Section Worker.

Context {W : Type}.

Local Open Scope go_scope.

(** [err := a.run(gctx, f)], seen from the caller: what [run] returns is a
    value there; a panic or a wait for the mutex is the caller's too. *)
Definition call_run (net : string -> list Item * option error) (f : Feed W)
  : M W (option error) :=
  fun w =>
    let o := run net f w in
    match res o with
    | Val _ => mkOut (Val None) (final o) (trace o)
    | Return err => mkOut (Val (Some err)) (final o) (trace o)
    | Panic msg => mkOut (Panic msg) (final o) (trace o)
    | Blocked => mkOut Blocked (final o) (trace o)
    end.

(** [time.NewTicker(d).C]: the duration must be greater than zero, if not
    [NewTicker] panics. *)
Definition NewTicker (d : time.Duration)
    (ticks : list (string -> list Item * option error))
  : M W (list (string -> list Item * option error)) :=
  if (d <=? 0)%Z then panic "non-positive interval for NewTicker"
  else ret ticks.

(** [for range C { err := a.run(gctx, f); if err != nil { return err } }] *)
Fixpoint onTicks (f : Feed W) (C : list (string -> list Item * option error))
  : M W unit :=
  match C with
  | [] => ret tt
  | net :: later =>
      let* err := call_run net f in
      match err with
      | Some e => return_err e
      | None => onTicks f later
      end
  end.

(** The function literal of [Run]; [net] is what the network answers when
    the goroutine starts. *)
Definition worker (net : string -> list Item * option error)
    (ticks : list (string -> list Item * option error)) (f : Feed W)
  : M W unit :=
  let* err := call_run net f in
  match err with
  | Some e => return_err e
  | None =>
      let* C := NewTicker (RefreshPeriod f) ticks in
      onTicks f C ;;;
      ret tt
  end.

End Worker.

(** ** The author of an item *)

(** [Person] from the feed, [type Person struct { *gofeed.Person }]: a
    struct around a pointer, which may be nil.  (The record [Person] above
    is the [gofeed.Person] it points to.) *)
Record PersonStruct : Type := mkPersonStruct {
  embedded : option Person
}.

(** [NewPerson] gives us a builder pattern. *)
Definition NewPerson (p : option Person) : PersonStruct :=
  {| embedded := p |}.

(** [strings.Join(elems, sep)] *)
Definition Join (elems : list string) (sep : string) : string :=
  String.concat sep elems.

(** [log.Printf("%s: %s", author, link)], without the prefix the logger
    puts in front of the line. *)
Definition Printf_author_link (author link : string) : string :=
  author ++ ": " ++ link.

Section Author.

(** [strings.TrimSpace], of the standard library: the string without its
    leading and trailing white space, as Unicode defines it. *)
Variable TrimSpace : string -> string.

(** The body of the loop of [String]:
    [if strings.TrimSpace(s) != "" { parts = append(parts, s) }] *)
Definition appendIfNotBlank (parts : list string) (s : string) : list string :=
  if negb (String.eqb (TrimSpace s) "") then (parts ++ [s])%list else parts.

(** [String] interface implementation for [Person].  [p.Name] on a nil
    embedded pointer is a run-time panic. *)
Definition Person_String (p : PersonStruct) : result string :=
  match embedded p with
  | None => Panic "runtime error: invalid memory address or nil pointer dereference"
  | Some g =>
      let parts := fold_left appendIfNotBlank [Name g; Email g] [] in
      Val (Join parts " ")
  end.

(** [LogAuthorAndLink] of the new item.  Its state is the list of the lines
    given to the logger.  [author] keeps its first value unless [String]
    returns one. *)
Definition LogAuthorAndLink : NewItemAction (list string) :=
  fun i lines =>
    let author := "unknown author" in
    let author :=
      match Item_Author i with
      | Some a =>
          match Person_String (NewPerson (Some a)) with
          | Val s => s
          | _ => author
          end
      | None => author
      end in
    ((lines ++ [Printf_author_link author (Item_Link i)])%list, None).

End Author.

(** ** Concrete authors and a logging feed, for the examples below *)

Module SampleLog.

Import Sample.

(** A stand-in for [strings.TrimSpace] that knows the space and the tab
    only; enough for names written in ASCII. *)
Definition isBlankChar (c : ascii) : bool :=
  orb (Ascii.eqb c " "%char) (Ascii.eqb c "009"%char).

Fixpoint trimLeft (s : string) : string :=
  match s with
  | EmptyString => EmptyString
  | String c s' => if isBlankChar c then trimLeft s' else s
  end.

Fixpoint rev_string (s acc : string) : string :=
  match s with
  | EmptyString => acc
  | String c s' => rev_string s' (String c acc)
  end.

Definition trim (s : string) : string :=
  rev_string (trimLeft (rev_string (trimLeft s) "")) "".

Definition alice : Person := {| Name := "Alice"; Email := "alice@example.org" |}.
Definition nameless : Person := {| Name := "  "; Email := "" |}.

(** [C], with an author. *)
Definition C_signed : Item :=
  {| Item_Title := "C"; Item_Updated := "3"; Item_Published := "p-C";
     Item_Link := "https://example.org/C"; Item_Author := Some alice |}.

(** A feed of [url] whose callback is [LogAuthorAndLink]; [period] is its
    refresh period. *)
Definition logging (period : time.Duration) : Feed (list string) :=
  {| URL := url; OnNewRecord := LogAuthorAndLink trim; RefreshPeriod := period |}.

(** A network that is down. *)
Definition down : string -> list Item * option error :=
  fun _ => ([], Some disk).

End SampleLog.

(** * Proofs *)

Local Open Scope list_scope.

(** ** Traces *)

Section TraceFacts.

Lemma calls_app (tr1 tr2 : list Event) : calls (tr1 ++ tr2) = calls tr1 ++ calls tr2.
Proof.
  induction tr1 as [|ev tr1 IH]; [reflexivity|].
  destruct ev; simpl; rewrite ?IH; reflexivity.
Qed.

Lemma failures_app (tr1 tr2 : list Event) :
  failures (tr1 ++ tr2) = failures tr1 ++ failures tr2.
Proof.
  induction tr1 as [|ev tr1 IH]; [reflexivity|].
  destruct ev as [| | | | |item [e|]]; simpl; rewrite ?IH; reflexivity.
Qed.

Lemma writes_app (tr1 tr2 : list Event) :
  writes (tr1 ++ tr2) = writes tr1 ++ writes tr2.
Proof.
  induction tr1 as [|ev tr1 IH]; [reflexivity|].
  destruct ev; simpl; rewrite ?IH; reflexivity.
Qed.

Lemma failed_call_in_failures (tr : list Event) (item : Item) (e : error) :
  In (EvCall item (Some e)) tr -> In e (failures tr).
Proof.
  induction tr as [|ev tr IH]; simpl; [tauto|].
  intros [->|Hin]; [left; reflexivity|].
  destruct ev as [| | | | |item' [e'|]]; simpl; auto.
Qed.

Lemma call_in_calls (tr : list Event) (item : Item) (r : option error) :
  In (EvCall item r) tr -> In item (calls tr).
Proof.
  induction tr as [|ev tr IH]; simpl; [tauto|].
  intros [->|Hin]; [left; reflexivity|].
  destruct ev; simpl; auto.
Qed.

Lemma calls_in_trace (tr : list Event) (item : Item) :
  In item (calls tr) -> exists r, In (EvCall item r) tr.
Proof.
  induction tr as [|ev tr IH]; simpl; [tauto|].
  destruct ev as [| | | | |item' r]; simpl;
    try (intros H; destruct (IH H) as [r' Hr]; exists r'; right; exact Hr).
  intros [->|H].
  - exists r. left. reflexivity.
  - destruct (IH H) as [r' Hr]. exists r'. right. exact Hr.
Qed.

Lemma failures_in_trace (tr : list Event) (e : error) :
  In e (failures tr) -> exists item, In (EvCall item (Some e)) tr.
Proof.
  induction tr as [|ev tr IH]; simpl; [tauto|].
  destruct ev as [| | | | |item' [e'|]]; simpl;
    try (intros H; destruct (IH H) as [it Hit]; exists it; right; exact Hit).
  intros [->|H].
  - exists item'. left. reflexivity.
  - destruct (IH H) as [it Hit]. exists it. right. exact Hit.
Qed.

End TraceFacts.

Section ScanFacts.

Context {W : Type}.
Implicit Types (f : Feed W) (w : World W) (head : FeedHead) (items : list Item).

Lemma title_test head item :
  negb (String.eqb (Title head) (Item_Title item)) = true <-> isNew head item.
Proof.
  unfold isNew. rewrite negb_true_iff.
  destruct (String.eqb_spec (Title head) (Item_Title item)) as [Heq|Hne].
  - split; [discriminate|]. intros H. congruence.
  - split; [|reflexivity]. intros _ Heq. apply Hne. symmetry. exact Heq.
Qed.

Lemma scan_spec f head items w :
  let o := scan f head items w in
  app (final o) = app w /\
  Forall (fun ev => storeKey ev = None) (trace o) /\
  writes (trace o) = [] /\
  exists n, scanned f head items o n.
Proof.
  revert w. induction items as [|item rest IH]; intros w; simpl.
  - repeat split; auto. exists 0. repeat split; simpl; auto.
    intros item H. discriminate.
  - destruct (negb (String.eqb (Title head) (Item_Title item))) eqn:Htest.
    + apply title_test in Htest.
      unfold bind, call. destruct (OnNewRecord f item (outside w)) as [c [e|]] eqn:Hcb; simpl.
      * repeat split; auto. exists 1. repeat split; simpl; auto with lia.
        exists e, 0, item. auto.
      * specialize (IH {| app := app w; outside := c |}).
        destruct IH as (Happ & Hkeys & Hwr & n & Hn & Hcalls & Hnew & Hres).
        repeat split; auto.
        exists (S n). repeat split; simpl; auto with lia.
        -- rewrite Hcalls. reflexivity.
        -- destruct (res _); auto.
           destruct Hres as (e & m & it & -> & Hit & -> & Hf).
           exists e, (S m), it. auto.
    + simpl. repeat split; auto. exists 0. repeat split; simpl; auto with lia.
      intros it [= <-].
      apply not_true_iff_false in Htest. rewrite title_test in Htest.
      unfold isNew in Htest. destruct (decide (Item_Title item = Title head)); tauto.
Qed.

End ScanFacts.

(** ** The steps of [run] *)

Section RunFacts.

Context {W : Type}.
Implicit Types (f : Feed W) (w : World W) (head : FeedHead) (items : list Item).

Lemma storeHead_held f zitem msg w :
  Mutex (app w) = true ->
  storeHead f zitem msg w = mkOut Blocked w [].
Proof.
  intros Hmu. unfold storeHead, Lock, bind, getApp. simpl. rewrite Hmu. reflexivity.
Qed.

Lemma storeHead_fault f zitem msg w e :
  Mutex (app w) = false ->
  nextFault (Store (app w)) = Some e ->
  let o := storeHead f zitem msg w in
  res o = Return (Errorf_w msg e) /\
  trace o = [EvLock; EvSet (URL f) (headOf zitem) (Some e)] /\
  Mutex (app (final o)) = true /\
  markers (final o) = markers w /\
  outside (final o) = outside w.
Proof.
  intros Hmu Hfault. unfold storeHead, Lock, Store_Set, Set_, bind, getApp. simpl.
  rewrite Hmu. simpl. rewrite Hfault. simpl. auto.
Qed.

Lemma storeHead_ok f zitem msg w :
  Mutex (app w) = false ->
  nextFault (Store (app w)) = None ->
  let o := storeHead f zitem msg w in
  res o = Val tt /\
  trace o = [EvLock; EvSet (URL f) (headOf zitem) None; EvUnlock] /\
  Mutex (app (final o)) = false /\
  markers (final o) = <[URL f := headOf zitem]> (markers w) /\
  outside (final o) = outside w.
Proof.
  intros Hmu Hfault. unfold storeHead, Lock, Store_Set, Set_, bind, getApp. simpl.
  rewrite Hmu. simpl. rewrite Hfault. simpl. auto.
Qed.

Lemma run_unfold net f w :
  run net f w =
  match net (URL f) with
  | (_, Some e) =>
      mkOut (Return (Errorf_w "fetching feed" e)) w [EvFetch (URL f)]
  | ([], None) =>
      mkOut (Panic "runtime error: index out of range") w [EvFetch (URL f)]
  | (zitem :: rest, None) =>
      match nextFault (Store (app w)) with
      | Some e =>
          mkOut (Return (Errorf_w "get from store" e)) (afterGet w)
            [EvFetch (URL f); EvGet (URL f)]
      | None =>
          match markers w !! URL f with
          | None =>
              let o := storeHead f zitem "storing" (afterGet w) in
              mkOut (res o) (final o) ([EvFetch (URL f); EvGet (URL f)] ++ trace o)
          | Some head =>
              let o := scan f head (zitem :: rest) (afterGet w) in
              match res o with
              | Val _ =>
                  let o' := storeHead f zitem "storing head" (final o) in
                  mkOut (res o') (final o')
                    ([EvFetch (URL f); EvGet (URL f)] ++ trace o ++ trace o')
              | Return e =>
                  mkOut (Return e) (final o)
                    ([EvFetch (URL f); EvGet (URL f)] ++ trace o)
              | Panic msg =>
                  mkOut (Panic msg) (final o)
                    ([EvFetch (URL f); EvGet (URL f)] ++ trace o)
              | Blocked =>
                  mkOut Blocked (final o)
                    ([EvFetch (URL f); EvGet (URL f)] ++ trace o)
              end
          end
      end
  end.
Proof.
  destruct (net (URL f)) as [[|zitem rest] [e|]] eqn:Hnet;
    destruct (nextFault (Store (app w))) as [e'|] eqn:Hfault;
    destruct (markers w !! URL f) as [head|] eqn:Hget;
    unfold markers in Hget;
    cbv beta iota zeta delta
      [run storeHead ParseURLWithContext Store_Get Get index bind emit ret
       getApp putApp return_err panic afterGet markers];
    rewrite ?Hnet; cbn -[scan]; rewrite ?Hfault, ?Hget; cbn -[scan];
    try reflexivity.
  all: destruct (scan f head (zitem :: rest) _) as [[[]|e2|msg|] fin tr];
    cbn; rewrite ?app_nil_r; reflexivity.
Qed.

End RunFacts.

Section CycleFacts.

Context {W : Type}.
Implicit Types (f : Feed W) (w : World W) (head : FeedHead) (items : list Item).

Lemma healthy_nextFault s : healthy s -> nextFault s = None.
Proof.
  unfold healthy, nextFault. destruct (faults s) as [|fault fs]; [reflexivity|].
  intros H. inversion H. assumption.
Qed.

Lemma healthy_afterCall s d : healthy s -> healthy (afterCall s d).
Proof.
  unfold healthy, afterCall. simpl. destruct (faults s) as [|fault fs]; simpl; [auto|].
  intros H. inversion H. assumption.
Qed.

Lemma afterGet_Mutex w : Mutex (app (afterGet w)) = Mutex (app w).
Proof. reflexivity. Qed.

(** The three ways [storeHead] ends. *)
Lemma storeHead_cases f zitem msg w :
  let o := storeHead f zitem msg w in
  (Mutex (app w) = true /\ o = mkOut Blocked w []) \/
  (exists e, Mutex (app w) = false /\ nextFault (Store (app w)) = Some e /\
     res o = Return (Errorf_w msg e) /\
     trace o = [EvLock; EvSet (URL f) (headOf zitem) (Some e)] /\
     Mutex (app (final o)) = true /\ markers (final o) = markers w) \/
  (Mutex (app w) = false /\ nextFault (Store (app w)) = None /\
     res o = Val tt /\
     trace o = [EvLock; EvSet (URL f) (headOf zitem) None; EvUnlock] /\
     Mutex (app (final o)) = false /\
     markers (final o) = <[URL f := headOf zitem]> (markers w)).
Proof.
  intros o. subst o.
  destruct (Mutex (app w)) eqn:Hmu.
  - left. split; [reflexivity|]. apply storeHead_held. exact Hmu.
  - right. destruct (nextFault (Store (app w))) as [e|] eqn:Hfault.
    + left. exists e.
      destruct (storeHead_fault f zitem msg w e Hmu Hfault) as (? & ? & ? & ? & ?).
      repeat split; assumption.
    + right.
      destruct (storeHead_ok f zitem msg w Hmu Hfault) as (? & ? & ? & ? & ?).
      repeat split; assumption.
Qed.

Lemma storeHead_quiet f zitem msg w :
  calls (trace (storeHead f zitem msg w)) = [] /\
  failures (trace (storeHead f zitem msg w)) = [].
Proof.
  destruct (storeHead_cases f zitem msg w)
    as [[_ ->]|[(e & _ & _ & _ & -> & _)|(_ & _ & _ & -> & _)]]; auto.
Qed.

Lemma storeHead_frame f zitem msg w :
  let o := storeHead f zitem msg w in
  (forall ev k, In ev (trace o) -> storeKey ev = Some k -> k = URL f) /\
  (forall k, k <> URL f -> markers (final o) !! k = markers w !! k).
Proof.
  intros o. subst o.
  destruct (storeHead_cases f zitem msg w)
    as [[_ ->]|[(e & _ & _ & _ & -> & _ & ->)|(_ & _ & _ & -> & _ & ->)]];
    simpl; (split; [intros ev k Hin Hk|intros k Hk]).
  - tauto.
  - reflexivity.
  - destruct Hin as [<-|[<-|[]]]; simpl in Hk; congruence.
  - reflexivity.
  - destruct Hin as [<-|[<-|[<-|[]]]]; simpl in Hk; congruence.
  - apply lookup_insert_ne. congruence.
Qed.

(** The prefix of new items is determined by the head and the items. *)
Lemma new_prefix_le head items n m :
  n <= length items ->
  Forall (isNew head) (take n items) ->
  (forall item, items !! m = Some item -> Item_Title item = Title head) ->
  n <= m.
Proof.
  intros Hn Hnew Hstop.
  destruct (le_lt_dec n m) as [|Hlt]; [assumption|exfalso].
  destruct (lookup_lt_is_Some_2 items m) as [item Hitem]; [lia|].
  assert (Hin : take n items !! m = Some item).
  { rewrite lookup_take_lt by lia. exact Hitem. }
  rewrite Forall_lookup in Hnew. apply (Hnew _ _ Hin). apply Hstop. exact Hitem.
Qed.

Lemma new_prefix_all head items n :
  n <= length items ->
  (forall item, items !! n = Some item -> Item_Title item = Title head) ->
  Forall (isNew head) items ->
  take n items = items.
Proof.
  intros Hn Hstop Hall.
  apply take_ge.
  apply (new_prefix_le head items (length items) n); auto.
  rewrite firstn_all. exact Hall.
Qed.

(** The calls of a cycle that has found a head. *)
Lemma found_cycle net f w items head :
  net (URL f) = (items, None) ->
  nextFault (Store (app w)) = None ->
  markers w !! URL f = Some head ->
  let o := run net f w in
  exists n,
    n <= length items /\
    calls (trace o) = take n items /\
    Forall (isNew head) (take n items) /\
    (failures (trace o) = [] ->
     forall item, items !! n = Some item -> Item_Title item = Title head) /\
    (forall e, In e (failures (trace o)) ->
       res o = Return (Errorf_w "trigger func" e) /\
       writes (trace o) = [] /\ markers (final o) = markers w).
Proof.
  intros Hnet Hfault Hget o. subst o. rewrite run_unfold, Hnet.
  destruct items as [|zitem rest].
  { exists 0. simpl. split; [lia|]. split; [reflexivity|]. split; [constructor|].
    split; [discriminate|]. intros e []. }
  rewrite Hfault, Hget.
  destruct (scan_spec f head (zitem :: rest) (afterGet w))
    as (Happ & Hkeys & Hwr & n & Hn & Hcalls & Hnew & Hres).
  destruct (scan f head (zitem :: rest) (afterGet w)) as [r fin tr].
  simpl in Happ, Hkeys, Hwr, Hn, Hcalls, Hnew, Hres.
  exists n. split; [exact Hn|].
  destruct r as [[]|err|msg|]; simpl; try tauto.
  - destruct Hres as [Hnone Hstop].
    destruct (storeHead_quiet f zitem "storing head" fin) as [Hc Hf].
    rewrite calls_app, failures_app, Hc, Hf, Hnone, app_nil_r.
    split; [exact Hcalls|]. split; [exact Hnew|]. split; [intros _; exact Hstop|].
    intros e [].
  - destruct Hres as (e & m & item & -> & Hitem & -> & Hf).
    rewrite Hf. split; [exact Hcalls|]. split; [exact Hnew|].
    split; [discriminate|].
    intros e' [<-|[]]. split; [reflexivity|]. split; [exact Hwr|].
    unfold markers. rewrite Happ. reflexivity.
Qed.

End CycleFacts.

Section MoreFacts.
Context {W : Type}.
Implicit Types (f : Feed W) (w : World W) (head : FeedHead) (items : list Item).

Lemma new_prefix_exists head items :
  exists n, n <= length items /\ Forall (isNew head) (take n items) /\
    (forall item, items !! n = Some item -> Item_Title item = Title head).
Proof.
  induction items as [|item rest (n & Hn & Hnew & Hstop)].
  - exists 0. split; [reflexivity|]. split; [constructor|]. intros item H. discriminate.
  - destruct (decide (Item_Title item = Title head)) as [Heq|Hne].
    + exists 0. split; [simpl; lia|]. split; [constructor|].
      intros it [= <-]. exact Heq.
    + exists (S n). split; [simpl; lia|]. split; [constructor; assumption|].
      exact Hstop.
Qed.

Lemma take_mono_In (item : Item) items n m :
  n <= m -> In item (take n items) -> In item (take m items).
Proof.
  intros Hle. rewrite <- !list_elem_of_In, !elem_of_take.
  intros (i & Hi & Hlt). exists i. split; [exact Hi|lia].
Qed.

(** A trace with a call of the callback comes from a cycle that fetched the
    items and found a head. *)
Lemma call_means_found net f w item r :
  In (EvCall item r) (trace (run net f w)) ->
  exists items head,
    net (URL f) = (items, None) /\ nextFault (Store (app w)) = None /\
    markers w !! URL f = Some head.
Proof.
  rewrite run_unfold.
  destruct (net (URL f)) as [[|zitem rest] [e|]]; simpl;
    try (intros [H|[]]; discriminate).
  destruct (nextFault (Store (app w))) as [e|]; simpl.
  { intros [H|[H|[]]]; discriminate. }
  destruct (markers w !! URL f) as [head|]; simpl.
  { intros _. exists (zitem :: rest), head. auto. }
  intros [H|[H|H]]; try discriminate.
  apply call_in_calls in H.
  destruct (storeHead_quiet f zitem "storing" (afterGet w)) as [Hc _].
  rewrite Hc in H. destruct H.
Qed.

(** Where a cycle that returns nil has been. *)
Lemma success_means_stored net f w :
  res (run net f w) = Val tt ->
  exists zitem rest pre,
    net (URL f) = (zitem :: rest, None) /\
    Mutex (app w) = false /\
    trace (run net f w) =
      pre ++ [EvLock; EvSet (URL f) (headOf zitem) None; EvUnlock] /\
    writes pre = [] /\
    calls pre = calls (trace (run net f w)) /\
    Mutex (app (final (run net f w))) = false /\
    markers (final (run net f w)) = <[URL f := headOf zitem]> (markers w).
Proof.
  rewrite run_unfold.
  destruct (net (URL f)) as [[|zitem rest] [e|]]; cbn [res final trace]; try discriminate.
  destruct (nextFault (Store (app w))) as [e|]; cbn [res final trace]; [discriminate|].
  destruct (markers w !! URL f) as [head|]; cbn [res final trace].
  - destruct (scan_spec f head (zitem :: rest) (afterGet w))
      as (Happ & _ & Hwr & _).
    destruct (scan f head (zitem :: rest) (afterGet w)) as [r fin tr].
    simpl in Happ, Hwr.
    destruct r as [[]|err|msg|]; cbn [res final trace]; try discriminate.
    destruct (storeHead_cases f zitem "storing head" fin)
      as [[_ ->]|[(e & _ & _ & -> & _)|(Hmu & _ & _ & -> & Hmu' & Hm)]];
      cbn [res final trace]; try discriminate.
    intros _. exists zitem, rest, ([EvFetch (URL f); EvGet (URL f)] ++ tr).
    split; [reflexivity|]. split; [rewrite Happ in Hmu; exact Hmu|].
    split; [rewrite <- app_assoc; reflexivity|].
    split; [exact Hwr|].
    split; [simpl; rewrite calls_app; simpl; rewrite app_nil_r; reflexivity|].
    split; [exact Hmu'|].
    rewrite Hm. unfold markers. rewrite Happ. reflexivity.
  - destruct (storeHead_cases f zitem "storing" (afterGet w))
      as [[_ ->]|[(e & _ & _ & -> & _)|(Hmu & _ & _ & -> & Hmu' & Hm)]];
      cbn [res final trace]; try discriminate.
    intros _. exists zitem, rest, [EvFetch (URL f); EvGet (URL f)].
    repeat (split; [reflexivity || assumption|]). exact Hm.
Qed.

(** With a feed that is not empty, a store that does not fail, a free mutex
    and a callback that does not fail, the cycle returns nil. *)
Lemma healthy_cycle_succeeds net f w zitem rest :
  net (URL f) = (zitem :: rest, None) ->
  healthy (Store (app w)) ->
  Mutex (app w) = false ->
  failures (trace (run net f w)) = [] ->
  res (run net f w) = Val tt.
Proof.
  intros Hnet Hok Hmu. rewrite run_unfold, Hnet.
  rewrite (healthy_nextFault _ Hok).
  assert (Hok' : nextFault (Store (app (afterGet w))) = None).
  { apply healthy_nextFault. simpl. apply healthy_afterCall. exact Hok. }
  destruct (markers w !! URL f) as [head|]; cbn [res final trace].
  - destruct (scan_spec f head (zitem :: rest) (afterGet w))
      as (Happ & _ & _ & n & _ & _ & _ & Hres).
    destruct (scan f head (zitem :: rest) (afterGet w)) as [r fin tr].
    simpl in Happ, Hres.
    destruct r as [[]|err|msg|]; cbn [res final trace]; try tauto.
    + intros _.
      destruct (storeHead_ok f zitem "storing head" fin) as [Hr _]; auto.
      * rewrite Happ. exact Hmu.
      * rewrite Happ. exact Hok'.
    + destruct Hres as (e & m & item & _ & _ & _ & Hf).
      rewrite failures_app, Hf. discriminate.
  - intros _. destruct (storeHead_ok f zitem "storing" (afterGet w)) as [Hr _]; auto.
Qed.

End MoreFacts.

Section LockFacts.
Context {W : Type}.
Implicit Types (f : Feed W) (w : World W) (head : FeedHead) (items : list Item).

(** Starting with a free mutex, the cycle ends with the mutex held on the
    two returns that follow a failed [Set], and on no other. *)
Lemma mutex_held_after_cycle net f w :
  Mutex (app w) = false ->
  (Mutex (app (final (run net f w))) = true <->
   exists e, res (run net f w) = Return (Errorf_w "storing" e) \/
             res (run net f w) = Return (Errorf_w "storing head" e)).
Proof.
  intros Hmu. rewrite run_unfold.
  destruct (net (URL f)) as [[|zitem rest] [e|]]; cbn [res final trace].
  1-3: rewrite Hmu; split; [discriminate|intros (e' & [H|H]); discriminate].
  destruct (nextFault (Store (app w))) as [e|]; cbn [res final trace].
  { rewrite afterGet_Mutex, Hmu.
    split; [discriminate|intros (e' & [H|H]); discriminate]. }
  destruct (markers w !! URL f) as [head|]; cbn [res final trace].
  - destruct (scan_spec f head (zitem :: rest) (afterGet w))
      as (Happ & _ & _ & n & _ & _ & _ & Hres).
    destruct (scan f head (zitem :: rest) (afterGet w)) as [r fin tr].
    simpl in Happ, Hres.
    assert (Hfin : Mutex (app fin) = false) by (rewrite Happ; exact Hmu).
    destruct r as [[]|err|msg|]; cbn [res final trace]; try tauto.
    + destruct (storeHead_cases f zitem "storing head" fin)
        as [[Hheld _]|[(e & _ & _ & -> & _ & -> & _)|(_ & _ & -> & _ & -> & _)]].
      * congruence.
      * split; [intros _; exists e; right; reflexivity|reflexivity].
      * split; [discriminate|intros (e' & [H|H]); discriminate].
    + destruct Hres as (e & m & item & _ & _ & -> & _). rewrite Hfin.
      split; [discriminate|intros (e' & [H|H]); discriminate].
  - destruct (storeHead_cases f zitem "storing" (afterGet w))
      as [[Hheld _]|[(e & _ & _ & -> & _ & -> & _)|(_ & _ & -> & _ & -> & _)]].
    + rewrite afterGet_Mutex in Hheld. congruence.
    + split; [intros _; exists e; left; reflexivity|reflexivity].
    + split; [discriminate|intros (e' & [H|H]); discriminate].
Qed.

End LockFacts.


(** * The claims *)

Section Claims.
Context {W : Type}.
Implicit Types (f : Feed W) (w : World W) (head : FeedHead) (items : list Item).

(** Claim C1.  In a cycle that fetches [items], finds a head for the URL of
    the feed and in which no call of the callback fails, the callback is
    invoked on the items of a prefix [take n items] and on nothing else,
    once each and in fetch order (index 0 first).  All titles in that prefix
    differ from the stored title; the item at index [n], if there is one,
    has the stored title, so the prefix is the longest one of that kind and
    neither that item nor any after it gets a call.  If no fetched item has
    the stored title, every fetched item gets the call. *)
Theorem new_items_called_in_fetch_order net f w items head :
  net (URL f) = (items, None) ->
  nextFault (Store (app w)) = None ->
  markers w !! URL f = Some head ->
  failures (trace (run net f w)) = [] ->
  exists n,
    n <= length items /\
    calls (trace (run net f w)) = take n items /\
    Forall (isNew head) (take n items) /\
    (forall item, items !! n = Some item -> Item_Title item = Title head) /\
    (Forall (isNew head) items -> calls (trace (run net f w)) = items).
Proof.
  intros Hnet Hfault Hget Hok.
  destruct (found_cycle net f w items head Hnet Hfault Hget)
    as (n & Hn & Hcalls & Hnew & Hstop & _).
  exists n. repeat (split; [assumption|]).
  split; [exact (Hstop Hok)|].
  intros Hall. rewrite Hcalls. apply (new_prefix_all head); auto.
Qed.

(** Claim C2.  In a cycle that starts with no head stored for the URL of the
    feed, the callback is never invoked; if the cycle returns nil, the store
    then holds, under that URL, a head whose title, updated and published
    fields are those of the item at index 0 of the fetched items.  Such a
    cycle does return nil whenever the feed is not empty, the store does not
    fail and the mutex is free. *)
Theorem first_run_stores_head_without_calls net f w :
  markers w !! URL f = None ->
  calls (trace (run net f w)) = [] /\
  (res (run net f w) = Val tt ->
   exists items zitem h,
     net (URL f) = (items, None) /\ items !! 0 = Some zitem /\
     markers (final (run net f w)) !! URL f = Some h /\
     Title h = Item_Title zitem /\
     Updated h = Item_Updated zitem /\
     Published h = Item_Published zitem) /\
  (forall zitem rest,
     net (URL f) = (zitem :: rest, None) ->
     healthy (Store (app w)) -> Mutex (app w) = false ->
     res (run net f w) = Val tt).
Proof.
  intros Hget.
  assert (Hcalls : calls (trace (run net f w)) = []).
  { destruct (calls (trace (run net f w))) as [|item l] eqn:Hc; [reflexivity|].
    assert (Hin : In item (calls (trace (run net f w)))) by (rewrite Hc; left; reflexivity).
    apply calls_in_trace in Hin. destruct Hin as [r Hin].
    apply call_means_found in Hin. destruct Hin as (items & head & _ & _ & Hsome).
    congruence. }
  split; [exact Hcalls|]. split.
  - intros Hres.
    destruct (success_means_stored net f w Hres)
      as (zitem & rest & pre & Hnet & _ & _ & _ & _ & _ & Hm).
    exists (zitem :: rest), zitem, (headOf zitem).
    split; [exact Hnet|]. split; [reflexivity|].
    split; [rewrite Hm; apply lookup_insert_eq|]. auto.
  - intros zitem rest Hnet Hok Hmu.
    apply (healthy_cycle_succeeds net f w zitem rest); auto.
    destruct (failures (trace (run net f w))) as [|e l] eqn:Hf; [reflexivity|].
    assert (Hin : In e (failures (trace (run net f w)))) by (rewrite Hf; left; reflexivity).
    apply failures_in_trace in Hin. destruct Hin as [item Hin].
    apply call_in_calls in Hin. rewrite Hcalls in Hin. destruct Hin.
Qed.

(** Claim C3.  In a cycle with a head stored for the URL of the feed, if a
    call of the callback returns an error [e], the cycle returns [e]
    (wrapped as "trigger func: ..."), calls [Set] not even once, and leaves
    the whole store, hence the head of this feed, as it was.  The items
    that count as new are then the same as before: they are the longest
    prefix [take n items] with titles other than the stored one, the item
    whose call failed is among them, and a later cycle over the same items,
    started on that store, invokes the callback on exactly that prefix when
    its calls succeed. *)
Theorem callback_error_leaves_head_untouched net f w head item e :
  markers w !! URL f = Some head ->
  In (EvCall item (Some e)) (trace (run net f w)) ->
  res (run net f w) = Return (Errorf_w "trigger func" e) /\
  writes (trace (run net f w)) = [] /\
  markers (final (run net f w)) = markers w /\
  exists items n,
    net (URL f) = (items, None) /\
    Forall (isNew head) (take n items) /\
    (forall it, items !! n = Some it -> Item_Title it = Title head) /\
    In item (take n items) /\
    (forall w' : World W,
       markers w' = markers (final (run net f w)) ->
       nextFault (Store (app w')) = None ->
       failures (trace (run net f w')) = [] ->
       calls (trace (run net f w')) = take n items).
Proof.
  intros Hget Hcall.
  destruct (call_means_found net f w item (Some e) Hcall)
    as (items & head' & Hnet & Hfault & Hget').
  assert (head' = head) as -> by congruence.
  destruct (found_cycle net f w items head Hnet Hfault Hget)
    as (m & Hm & Hcalls & Hnew & _ & Hfail).
  destruct (Hfail e (failed_call_in_failures _ _ _ Hcall)) as (Hres & Hwr & Hsame).
  repeat (split; [assumption|]).
  destruct (new_prefix_exists head items) as (n & Hn & Hnewn & Hstop).
  exists items, n. repeat (split; [assumption|]).
  assert (Hle : m <= n) by (apply (new_prefix_le head items); assumption).
  split.
  - apply (take_mono_In item items m n Hle).
    rewrite <- Hcalls. apply (call_in_calls _ _ _ Hcall).
  - intros w' Hm' Hfault' Hok'.
    assert (Hget2 : markers w' !! URL f = Some head) by (rewrite Hm', Hsame; exact Hget).
    destruct (found_cycle net f w' items head Hnet Hfault' Hget2)
      as (k & Hk & Hcalls' & Hnew' & Hstop' & _).
    rewrite Hcalls'. f_equal. apply Nat.le_antisymm.
    + apply (new_prefix_le head items); assumption.
    + apply (new_prefix_le head items); auto.
Qed.

(** Claim C4, as amended.  A cycle with a head stored for the URL of the feed
    that returns nil ends with [Lock], [Set] of a head built from the item at
    index 0 of the fetched items, and [Unlock]; there is no other call of
    [Set], and the store is the old one with that head written under the URL
    of the feed.  This holds also when the stored title equals the title at
    index 0: then the callback is not invoked and the title stays the same.
    The write changes nothing at all when the stored updated and published
    fields, too, equal those at index 0.  Such a cycle does return nil
    whenever the feed is not empty, the store does not fail, the mutex is
    free and no call of the callback fails. *)
Theorem successful_cycle_overwrites_head net f w head :
  markers w !! URL f = Some head ->
  (res (run net f w) = Val tt ->
   exists items zitem pre h,
     net (URL f) = (items, None) /\ items !! 0 = Some zitem /\
     Title h = Item_Title zitem /\
     Updated h = Item_Updated zitem /\
     Published h = Item_Published zitem /\
     trace (run net f w) = pre ++ [EvLock; EvSet (URL f) h None; EvUnlock] /\
     writes pre = [] /\
     markers (final (run net f w)) = <[URL f := h]> (markers w) /\
     (Title head = Item_Title zitem ->
      calls (trace (run net f w)) = [] /\ Title h = Title head) /\
     (Title head = Item_Title zitem ->
      Updated head = Item_Updated zitem ->
      Published head = Item_Published zitem ->
      markers (final (run net f w)) = markers w)) /\
  (forall zitem rest,
     net (URL f) = (zitem :: rest, None) ->
     healthy (Store (app w)) -> Mutex (app w) = false ->
     failures (trace (run net f w)) = [] ->
     res (run net f w) = Val tt).
Proof.
  intros Hget. split.
  - intros Hres.
    destruct (success_means_stored net f w Hres)
      as (zitem & rest & pre & Hnet & _ & Htr & Hwr & _ & _ & Hm).
    exists (zitem :: rest), zitem, pre, (headOf zitem).
    repeat (split; [reflexivity || assumption|]).
    split.
    + intros Htitle. split; [|symmetry; exact Htitle].
      assert (Hfault : nextFault (Store (app w)) = None).
      { revert Hres. rewrite run_unfold, Hnet.
        destruct (nextFault (Store (app w))); [discriminate|reflexivity]. }
      destruct (found_cycle net f w _ head Hnet Hfault Hget)
        as (n & Hn & Hcalls & Hnew & _).
      rewrite Hcalls. destruct n as [|n]; [reflexivity|].
      simpl in Hnew. inversion Hnew as [|? ? Hz _]. unfold isNew in Hz. congruence.
    + intros Ht Hu Hp. rewrite Hm. apply insert_id. rewrite Hget. f_equal.
      destruct head as [t u p]. unfold headOf. simpl in Ht, Hu, Hp. congruence.
  - intros zitem rest Hnet Hok Hmu Hf.
    apply (healthy_cycle_succeeds net f w zitem rest); assumption.
Qed.

(** Claim C5 (the code at the input that breaks it).  When the fetch succeeds
    with no items at all, [feed.Items[0]] is out of range: the cycle panics
    right after the fetch, before it reads the store. *)
Theorem empty_feed_panics f w :
  res (run (fun _ => ([], None)) f w) = Panic "runtime error: index out of range" /\
  trace (run (fun _ => ([], None)) f w) = [EvFetch (URL f)].
Proof. rewrite run_unfold. split; reflexivity. Qed.

(** Claim C6 (the code at the inputs that break it).  When [Set] fails, on
    the first run as well as with a head stored, the cycle returns the error
    with the mutex still held; the next cycle on that application then waits
    for the mutex for good. *)
Theorem failed_Set_leaves_mutex_held f zitem rest e (ff : list (Feed W)) (c : W) :
  let net := fun _ : string => (zitem :: rest, @None error) in
  let fresh := {| app := {| Store := {| data := ∅; faults := [None; Some e] |};
                            Feeds := ff; Mutex := false |};
                  outside := c |} in
  let known := {| app := {| Store := {| data := {[URL f := headOf zitem]};
                                        faults := [None; Some e] |};
                            Feeds := ff; Mutex := false |};
                  outside := c |} in
  (res (run net f fresh) = Return (Errorf_w "storing" e) /\
   Mutex (app (final (run net f fresh))) = true) /\
  (res (run net f known) = Return (Errorf_w "storing head" e) /\
   Mutex (app (final (run net f known))) = true) /\
  res (run net f (final (run net f known))) = Blocked.
Proof.
  intros net fresh known.
  assert (Hfresh : run net f fresh =
    mkOut (Return (Errorf_w "storing" e))
      {| app := {| Store := {| data := ∅; faults := [] |}; Feeds := ff; Mutex := true |};
         outside := c |}
      [EvFetch (URL f); EvGet (URL f); EvLock; EvSet (URL f) (headOf zitem) (Some e)]).
  { rewrite run_unfold. subst net fresh. cbn [app Store nextFault faults].
    unfold markers. cbn [app Store data]. rewrite lookup_empty. reflexivity. }
  assert (Hknown : run net f known =
    mkOut (Return (Errorf_w "storing head" e))
      {| app := {| Store := {| data := {[URL f := headOf zitem]}; faults := [] |};
                   Feeds := ff; Mutex := true |};
         outside := c |}
      [EvFetch (URL f); EvGet (URL f); EvLock; EvSet (URL f) (headOf zitem) (Some e)]).
  { rewrite run_unfold. subst net known. cbn [app Store nextFault faults].
    unfold markers. cbn [app Store data]. rewrite lookup_singleton_eq.
    cbn [scan headOf Title]. rewrite String.eqb_refl. reflexivity. }
  rewrite Hfresh, Hknown. cbn [res final app Mutex].
  repeat split.
  rewrite run_unfold. subst net. cbn [app Store nextFault faults].
  unfold markers. cbn [app Store data]. rewrite lookup_singleton_eq.
  cbn [scan headOf Title]. rewrite String.eqb_refl. reflexivity.
Qed.

(** Claim C7.  Every call of [Get] and [Set] in a cycle for the feed [f] has
    the key [URL f]; under every other key the store holds after the cycle
    what it held before; and the store, a map, holds at most one head per
    key. *)
Theorem store_calls_use_feed_url_only net f w :
  (forall ev k, In ev (trace (run net f w)) -> storeKey ev = Some k -> k = URL f) /\
  (forall k, k <> URL f ->
     markers (final (run net f w)) !! k = markers w !! k) /\
  (forall k h1 h2,
     markers (final (run net f w)) !! k = Some h1 ->
     markers (final (run net f w)) !! k = Some h2 -> h1 = h2).
Proof.
  split; [|split]; [| |intros k h1 h2 H1 H2; congruence]; rewrite run_unfold;
    destruct (net (URL f)) as [[|zitem rest] [e|]]; cbn [res final trace].
  all: try (intros ev k [<-|[]]; discriminate).
  all: try reflexivity.
  all: destruct (nextFault (Store (app w))) as [e|]; cbn [res final trace].
  all: try (intros ev k [<-|[<-|[]]]; simpl; congruence).
  all: try reflexivity.
  all: destruct (markers w !! URL f) as [head|]; cbn [res final trace].
  - destruct (scan_spec f head (zitem :: rest) (afterGet w)) as (Happ & Hkeys & _).
    destruct (scan f head (zitem :: rest) (afterGet w)) as [r fin tr].
    simpl in Happ, Hkeys. rewrite Forall_forall in Hkeys.
    assert (Hpre : forall ev k,
      In ev ([EvFetch (URL f); EvGet (URL f)] ++ tr) -> storeKey ev = Some k -> k = URL f).
    { intros ev k [<-|[<-|Hin]]; simpl; try congruence.
      intros Hk. apply list_elem_of_In in Hin. rewrite (Hkeys _ Hin) in Hk. discriminate. }
    destruct r as [[]|err|msg|]; cbn [res final trace]; try exact Hpre.
    intros ev k Hin. rewrite app_assoc in Hin. apply in_app_or in Hin.
    destruct Hin as [Hin|Hin]; [exact (Hpre ev k Hin)|].
    destruct (storeHead_frame f zitem "storing head" fin) as [Hk _]. exact (Hk ev k Hin).
  - intros ev k [<-|[<-|Hin]]; simpl; try congruence.
    destruct (storeHead_frame f zitem "storing" (afterGet w)) as [Hk _]. exact (Hk ev k Hin).
  - destruct (scan_spec f head (zitem :: rest) (afterGet w)) as (Happ & _).
    destruct (scan f head (zitem :: rest) (afterGet w)) as [r fin tr].
    simpl in Happ.
    assert (Hfin : markers fin = markers w) by (unfold markers; rewrite Happ; reflexivity).
    destruct r as [[]|err|msg|]; cbn [res final trace]; intros k Hk;
      try (rewrite Hfin; reflexivity).
    destruct (storeHead_frame f zitem "storing head" fin) as [_ Hfr].
    rewrite (Hfr k Hk), Hfin. reflexivity.
  - intros k Hk.
    destruct (storeHead_frame f zitem "storing" (afterGet w)) as [_ Hfr].
    rewrite (Hfr k Hk). reflexivity.
Qed.

(** Claim C8.  [New] returns an error exactly when no store is handed in and
    the default store cannot be opened; the error is the one of the store,
    wrapped as "bbolt.NewStore: ...", and no application is returned with
    it.  With a store handed in, [New] succeeds, and the application has
    that very store and the feeds given (and a free mutex); with none
    handed in and a default store that opens, it has the default store. *)
Theorem New_fails_only_without_store
    (bbolt_NewStore : unit -> KVStore * option error)
    (s : option KVStore) (ff : list (Feed W)) :
  (forall err,
     snd (New bbolt_NewStore s ff) = Some err <->
     s = None /\
     exists e, snd (bbolt_NewStore tt) = Some e /\ err = Errorf_w "bbolt.NewStore" e) /\
  (snd (New bbolt_NewStore s ff) <> None -> fst (New bbolt_NewStore s ff) = None) /\
  (forall store,
     s = Some store ->
     New bbolt_NewStore s ff =
       (Some {| Store := store; Feeds := ff; Mutex := false |}, None)) /\
  (forall store,
     s = None -> bbolt_NewStore tt = (store, None) ->
     New bbolt_NewStore s ff =
       (Some {| Store := store; Feeds := ff; Mutex := false |}, None)).
Proof.
  unfold New. destruct s as [store|].
  - split; [|split; [|split]].
    + intros err. split; [discriminate|]. intros [H _]. discriminate.
    + intros H. exfalso. apply H. reflexivity.
    + intros store' [= <-]. reflexivity.
    + discriminate.
  - destruct (bbolt_NewStore tt) as [store [e|]]; simpl; (split; [|split; [|split]]).
    + intros err. split.
      * intros [= <-]. split; [reflexivity|]. exists e. auto.
      * intros [_ (e' & [= <-] & ->)]. reflexivity.
    + reflexivity.
    + discriminate.
    + discriminate.
    + intros err. split; [discriminate|]. intros [_ (e' & H & _)]. discriminate.
    + intros H. exfalso. apply H. reflexivity.
    + discriminate.
    + intros store' _ [= <-]. reflexivity.
Qed.

(** Claim C10.  [NewFeed url action] has [url] as its URL, [action] as its
    callback and a refresh period of one minute, that is 60 * 10^9
    nanoseconds, which is positive and within the range of int64. *)
Theorem NewFeed_fields (url : string) (action : NewItemAction W) :
  URL (NewFeed url action) = url /\
  OnNewRecord (NewFeed url action) = action /\
  RefreshPeriod (NewFeed url action) = time.Minute /\
  RefreshPeriod (NewFeed url action) = (60 * 1000 * 1000 * 1000)%Z /\
  (0 < RefreshPeriod (NewFeed url action) <= time.maxDuration)%Z.
Proof.
  repeat split; try reflexivity; vm_compute; congruence.
Qed.

End Claims.

Import Sample.


Lemma new_items_called_in_fetch_order_witness :
  serving [C; B; A; X] (URL (feed note)) = ([C; B; A; X], None) /\
  nextFault (Store (app (world {[url := headOf A]} []))) = None /\
  markers (world {[url := headOf A]} []) !! URL (feed note) = Some (headOf A) /\
  failures (trace (run (serving [C; B; A; X]) (feed note)
                       (world {[url := headOf A]} []))) = [] /\
  exists n,
    n <= length [C; B; A; X] /\
    calls (trace (run (serving [C; B; A; X]) (feed note)
                      (world {[url := headOf A]} []))) = take n [C; B; A; X] /\
    Forall (isNew (headOf A)) (take n [C; B; A; X]) /\
    (forall item, [C; B; A; X] !! n = Some item -> Item_Title item = Title (headOf A)) /\
    (Forall (isNew (headOf A)) [C; B; A; X] ->
     calls (trace (run (serving [C; B; A; X]) (feed note)
                       (world {[url := headOf A]} []))) = [C; B; A; X]).
Proof.
  assert (H1 : serving [C; B; A; X] (URL (feed note)) = ([C; B; A; X], None))
    by reflexivity.
  assert (H2 : nextFault (Store (app (world {[url := headOf A]} []))) = None)
    by reflexivity.
  assert (H3 : markers (world {[url := headOf A]} []) !! URL (feed note)
               = Some (headOf A)) by (vm_compute; reflexivity).
  assert (H4 : failures (trace (run (serving [C; B; A; X]) (feed note)
                 (world {[url := headOf A]} []))) = []) by (vm_compute; reflexivity).
  repeat (split; [assumption|]).
  exact (new_items_called_in_fetch_order _ _ _ _ _ H1 H2 H3 H4).
Defined.

Lemma first_run_stores_head_without_calls_witness :
  markers (world ∅ []) !! URL (feed note) = None /\
  calls (trace (run (serving [C; B; A]) (feed note) (world ∅ []))) = [] /\
  (res (run (serving [C; B; A]) (feed note) (world ∅ [])) = Val tt ->
   exists items zitem h,
     serving [C; B; A] (URL (feed note)) = (items, None) /\
     items !! 0 = Some zitem /\
     markers (final (run (serving [C; B; A]) (feed note) (world ∅ [])))
       !! URL (feed note) = Some h /\
     Title h = Item_Title zitem /\
     Updated h = Item_Updated zitem /\
     Published h = Item_Published zitem) /\
  (forall zitem rest,
     serving [C; B; A] (URL (feed note)) = (zitem :: rest, None) ->
     healthy (Store (app (world ∅ []))) -> Mutex (app (world ∅ [])) = false ->
     res (run (serving [C; B; A]) (feed note) (world ∅ [])) = Val tt).
Proof.
  assert (H1 : markers (world ∅ []) !! URL (feed note) = None)
    by (vm_compute; reflexivity).
  split; [exact H1|].
  exact (first_run_stores_head_without_calls (serving [C; B; A]) (feed note)
           (world ∅ []) H1).
Defined.

Lemma callback_error_leaves_head_untouched_witness :
  markers (world {[url := headOf A]} []) !! URL (feed (failOn "B")) = Some (headOf A) /\
  In (EvCall B (Some (errorString "boom")))
     (trace (run (serving [C; B; A; X]) (feed (failOn "B"))
                 (world {[url := headOf A]} []))) /\
  res (run (serving [C; B; A; X]) (feed (failOn "B")) (world {[url := headOf A]} []))
    = Return (Errorf_w "trigger func" (errorString "boom")) /\
  markers (final (run (serving [C; B; A; X]) (feed (failOn "B"))
                      (world {[url := headOf A]} [])))
    = markers (world {[url := headOf A]} []).
Proof.
  assert (H1 : markers (world {[url := headOf A]} []) !! URL (feed (failOn "B"))
               = Some (headOf A)) by (vm_compute; reflexivity).
  assert (H2 : In (EvCall B (Some (errorString "boom")))
     (trace (run (serving [C; B; A; X]) (feed (failOn "B"))
                 (world {[url := headOf A]} []))))
    by (vm_compute; right; right; right; left; reflexivity).
  split; [exact H1|]. split; [exact H2|].
  destruct (callback_error_leaves_head_untouched (serving [C; B; A; X])
              (feed (failOn "B")) (world {[url := headOf A]} []) (headOf A) B
              (errorString "boom") H1 H2) as (Hres & _ & Hsame & _).
  split; [exact Hres|exact Hsame].
Defined.

Lemma successful_cycle_overwrites_head_witness :
  markers (world {[url := headOf A]} []) !! URL (feed note) = Some (headOf A) /\
  res (run (serving [C; B; A; X]) (feed note) (world {[url := headOf A]} [])) = Val tt /\
  exists items zitem pre h,
    serving [C; B; A; X] (URL (feed note)) = (items, None) /\
    items !! 0 = Some zitem /\
    Title h = Item_Title zitem /\
    trace (run (serving [C; B; A; X]) (feed note) (world {[url := headOf A]} []))
      = pre ++ [EvLock; EvSet (URL (feed note)) h None; EvUnlock] /\
    markers (final (run (serving [C; B; A; X]) (feed note)
                        (world {[url := headOf A]} [])))
      = <[URL (feed note) := h]> (markers (world {[url := headOf A]} [])).
Proof.
  assert (H1 : markers (world {[url := headOf A]} []) !! URL (feed note)
               = Some (headOf A)) by (vm_compute; reflexivity).
  assert (H2 : res (run (serving [C; B; A; X]) (feed note)
                        (world {[url := headOf A]} [])) = Val tt)
    by (vm_compute; reflexivity).
  split; [exact H1|]. split; [exact H2|].
  destruct (successful_cycle_overwrites_head (serving [C; B; A; X]) (feed note)
              (world {[url := headOf A]} []) (headOf A) H1) as [Hdone _].
  destruct (Hdone H2)
    as (items & zitem & pre & h & Hnet & Hz & Ht & _ & _ & Htr & _ & Hm & _).
  exists items, zitem, pre, h. repeat (split; [assumption|]). exact Hm.
Defined.

Lemma store_calls_use_feed_url_only_witness :
  other <> URL (feed note) /\
  markers (final (run (serving [C; B; A; X]) (feed note)
                      (world {[url := headOf A; other := headOf X]} []))) !! other
  = markers (world {[url := headOf A; other := headOf X]} []) !! other.
Proof.
  assert (H1 : other <> URL (feed note)) by (vm_compute; discriminate).
  split; [exact H1|].
  destruct (store_calls_use_feed_url_only (serving [C; B; A; X]) (feed note)
              (world {[url := headOf A; other := headOf X]} [])) as (_ & Hframe & _).
  exact (Hframe other H1).
Defined.

Lemma New_fails_only_without_store_witness :
  New (fun _ => (mkStore ∅ [], Some disk)) None [feed note]
    = (None, Some (Errorf_w "bbolt.NewStore" disk)) /\
  New (fun _ => (mkStore ∅ [], Some disk)) (Some (mkStore {[url := headOf A]} []))
      [feed note]
    = (Some {| Store := mkStore {[url := headOf A]} []; Feeds := [feed note];
               Mutex := false |}, None).
Proof.
  split.
  - reflexivity.
  - destruct (New_fails_only_without_store (fun _ => (mkStore ∅ [], Some disk))
                (Some (mkStore {[url := headOf A]} [])) [feed note])
      as (_ & _ & Hsome & _).
    exact (Hsome _ eq_refl).
Defined.

(** Claim C4 as it was stated fails: with the title [C] stored and a feed
    whose first item is [C] edited since (same title, later [updated]
    stamp), the cycle returns nil and invokes no callback, yet the head it
    writes differs from the head that was stored. *)
Lemma overwrite_need_not_be_content_equal :
  markers (world {[url := headOf C]} []) !! url = Some (headOf C) /\
  Title (headOf C) = Item_Title C_edited /\
  res (run (serving [C_edited; B; A]) (feed note) (world {[url := headOf C]} []))
    = Val tt /\
  calls (trace (run (serving [C_edited; B; A]) (feed note)
                    (world {[url := headOf C]} []))) = [] /\
  markers (final (run (serving [C_edited; B; A]) (feed note)
                      (world {[url := headOf C]} []))) !! url
    <> markers (world {[url := headOf C]} []) !! url.
Proof.
  repeat split; try (vm_compute; reflexivity).
  vm_compute. discriminate.
Qed.

(** ** The cases of the specification, run *)

(** New-item detection: stored ["A"], fetched ["C"; "B"; "A"; "X"]. *)
Example new_item_detection :
  let o := run (serving [C; B; A; X]) (feed note) (world {[url := headOf A]} []) in
  res o = Val tt /\ calls (trace o) = [C; B] /\ outside (final o) = ["C"; "B"] /\
  markers (final o) !! url = Some (headOf C).
Proof. vm_compute. auto. Qed.

(** First-run bootstrap: nothing stored. *)
Example first_run_bootstrap :
  let o := run (serving [C; B; A]) (feed note) (world ∅ []) in
  res o = Val tt /\ calls (trace o) = [] /\ markers (final o) !! url = Some (headOf C).
Proof. vm_compute. auto. Qed.

(** No change: stored ["C"], fetched ["C"; "B"; "A"]. *)
Example no_change :
  let o := run (serving [C; B; A]) (feed note) (world {[url := headOf C]} []) in
  res o = Val tt /\ calls (trace o) = [] /\
  markers (final o) = markers (world {[url := headOf C]} []).
Proof. vm_compute. auto. Qed.

(** Full miss: stored ["Z"], fetched ["C"; "B"; "A"]. *)
Example full_miss :
  let o := run (serving [C; B; A]) (feed note)
               (world {[url := headOf (entry "Z" "0")]} []) in
  res o = Val tt /\ calls (trace o) = [C; B; A] /\
  markers (final o) !! url = Some (headOf C).
Proof. vm_compute. auto. Qed.

(** The callback fails on the second of three new items. *)
Example callback_failure :
  let w := world {[url := headOf (entry "Z" "0")]} [] in
  let o := run (serving [C; B; A]) (feed (failOn "B")) w in
  res o = Return (Errorf_w "trigger func" (errorString "boom")) /\
  calls (trace o) = [C; B] /\ outside (final o) = ["C"] /\
  markers (final o) !! url = markers w !! url /\
  calls (trace (run (serving [C; B; A]) (feed note) (final o))) = [C; B; A].
Proof. vm_compute. auto 10. Qed.

(** * More about a cycle *)

Section CycleMore.

Context {W : Type}.
Implicit Types (f : Feed W) (w : World W) (head : FeedHead) (items : list Item).

(** The loop emits calls of the callback and nothing else, and the state of
    the callbacks is threaded through them. *)
Lemma scan_calls_only f head items w :
  Forall isCallEv (trace (scan f head items w)) /\
  outside (final (scan f head items w)) =
    fold_left (fun c item => fst (OnNewRecord f item c))
      (calls (trace (scan f head items w))) (outside w).
Proof.
  revert w. induction items as [|item rest IH]; intros w; simpl.
  - split; [constructor|reflexivity].
  - destruct (negb (String.eqb (Title head) (Item_Title item))); simpl;
      [|split; [constructor|reflexivity]].
    unfold bind, call.
    destruct (OnNewRecord f item (outside w)) as [c [e|]] eqn:Hcb; simpl.
    + rewrite Hcb. split; [repeat constructor|reflexivity].
    + destruct (IH {| app := app w; outside := c |}) as [Hall Hout].
      split; [constructor; [exact I|exact Hall]|].
      rewrite Hout, Hcb. reflexivity.
Qed.

Lemma storeHead_outside f zitem msg w :
  outside (final (storeHead f zitem msg w)) = outside w.
Proof.
  destruct (Mutex (app w)) eqn:Hmu.
  - rewrite storeHead_held by exact Hmu. reflexivity.
  - destruct (nextFault (Store (app w))) as [e|] eqn:Hfault.
    + destruct (storeHead_fault f zitem msg w e Hmu Hfault) as (_ & _ & _ & _ & H).
      exact H.
    + destruct (storeHead_ok f zitem msg w Hmu Hfault) as (_ & _ & _ & _ & H).
      exact H.
Qed.

(** The store after a cycle is the store before it, or that store with the
    head of the first item written under the URL of the feed. *)
Lemma run_markers net f w :
  markers (final (run net f w)) = markers w \/
  exists zitem rest,
    net (URL f) = (zitem :: rest, None) /\
    markers (final (run net f w)) = <[URL f := headOf zitem]> (markers w).
Proof.
  rewrite run_unfold.
  destruct (net (URL f)) as [[|zitem rest] [e|]]; cbn [res final trace]; auto.
  destruct (nextFault (Store (app w))) as [e|]; cbn [res final trace]; auto.
  destruct (markers w !! URL f) as [head|]; cbn [res final trace].
  - destruct (scan_spec f head (zitem :: rest) (afterGet w)) as (Happ & _).
    destruct (scan f head (zitem :: rest) (afterGet w)) as [r fin tr].
    simpl in Happ.
    assert (Hfin : markers fin = markers w) by (unfold markers; rewrite Happ; reflexivity).
    destruct r as [[]|err|msg|]; cbn [res final trace]; auto.
    destruct (storeHead_cases f zitem "storing head" fin)
      as [[_ ->]|[(e & _ & _ & _ & _ & _ & ->)|(_ & _ & _ & _ & _ & ->)]];
      cbn [final]; auto.
    right. exists zitem, rest. rewrite Hfin. auto.
  - destruct (storeHead_cases f zitem "storing" (afterGet w))
      as [[_ ->]|[(e & _ & _ & _ & _ & _ & ->)|(_ & _ & _ & _ & _ & ->)]];
      cbn [final]; auto.
    right. exists zitem, rest. auto.
Qed.


(** A cycle waits for the mutex only if it finds it held, and then it has
    written nothing; it leaves a free mutex free unless [Set] fails. *)
Lemma run_blocked net f w :
  res (run net f w) = Blocked ->
  Mutex (app w) = true /\ markers (final (run net f w)) = markers w.
Proof.
  rewrite run_unfold.
  destruct (net (URL f)) as [[|zitem rest] [e|]]; cbn [res final trace];
    try discriminate.
  destruct (nextFault (Store (app w))) as [e|]; cbn [res final trace];
    try discriminate.
  destruct (markers w !! URL f) as [head|]; cbn [res final trace].
  - destruct (scan_spec f head (zitem :: rest) (afterGet w))
      as (Happ & _ & _ & n & _ & _ & _ & Hres).
    destruct (scan f head (zitem :: rest) (afterGet w)) as [r fin tr].
    cbn [res final] in Happ, Hres.
    destruct r as [[]|err|m|]; cbn [res final trace]; try discriminate; try tauto.
    destruct (storeHead_cases f zitem "storing head" fin)
      as [[Hmu ->]|[(e & _ & _ & -> & _)|(_ & _ & -> & _)]]; try discriminate.
    intros _. cbn [final]. unfold markers. rewrite Happ in *. auto.
  - destruct (storeHead_cases f zitem "storing" (afterGet w))
      as [[Hmu ->]|[(e & _ & _ & -> & _)|(_ & _ & -> & _)]]; try discriminate.
    intros _. auto.
Qed.

End CycleMore.

Section CycleExtras.

Context {W : Type}.
Implicit Types (f : Feed W) (w : World W) (head : FeedHead) (items : list Item).

Lemma run_fetches net f w : fetches (trace (run net f w)) = 1.
Proof.
  assert (Hcalls : forall tr, Forall isCallEv tr -> fetches tr = 0).
  { induction 1 as [|ev tr Hev _ IH]; [reflexivity|].
    destruct ev; simpl in *; tauto. }
  assert (Happ : forall tr1 tr2, fetches (tr1 ++ tr2) = fetches tr1 + fetches tr2).
  { induction tr1 as [|ev tr1 IH]; intros tr2; [reflexivity|].
    destruct ev; simpl; rewrite ?IH; reflexivity. }
  rewrite run_unfold.
  destruct (net (URL f)) as [[|zitem rest] [e|]]; cbn [res final trace]; auto.
  destruct (nextFault (Store (app w))) as [e|]; cbn [res final trace]; auto.
  destruct (markers w !! URL f) as [head|]; cbn [res final trace].
  - destruct (scan_calls_only f head (zitem :: rest) (afterGet w)) as [Hcs _].
    destruct (scan f head (zitem :: rest) (afterGet w)) as [r fin tr].
    cbn [trace] in Hcs. apply Hcalls in Hcs.
    destruct r as [[]|err|msg|]; cbn [res final trace]; simpl; rewrite ?Happ, Hcs; auto.
    destruct (storeHead_cases f zitem "storing head" fin)
      as [[_ ->]|[(e & _ & _ & _ & -> & _)|(_ & _ & _ & -> & _)]]; reflexivity.
  - destruct (storeHead_cases f zitem "storing" (afterGet w))
      as [[_ ->]|[(e & _ & _ & _ & -> & _)|(_ & _ & _ & -> & _)]]; reflexivity.
Qed.

(** X1.  When the fetch fails, the cycle returns the error wrapped as
    "fetching feed: ..." right after the fetch: it has read and written
    nothing in the store, has not touched the mutex, has called no callback,
    and the world is the one it started in. *)
Theorem fetch_error_ends_the_cycle_at_once net f w items e :
  net (URL f) = (items, Some e) ->
  res (run net f w) = Return (Errorf_w "fetching feed" e) /\
  trace (run net f w) = [EvFetch (URL f)] /\
  final (run net f w) = w.
Proof.
  intros Hnet. rewrite run_unfold, Hnet. destruct items; auto.
Qed.

(** X2.  When [Get] fails on a feed that is not empty, the cycle returns the
    error wrapped as "get from store: ..." after the fetch and the [Get]:
    no callback is called and no [Set], the store holds what it held, and
    the mutex and the state of the callbacks are as they were. *)
Theorem Get_error_ends_the_cycle_before_any_call net f w zitem rest e :
  net (URL f) = (zitem :: rest, None) ->
  nextFault (Store (app w)) = Some e ->
  res (run net f w) = Return (Errorf_w "get from store" e) /\
  trace (run net f w) = [EvFetch (URL f); EvGet (URL f)] /\
  markers (final (run net f w)) = markers w /\
  Mutex (app (final (run net f w))) = Mutex (app w) /\
  outside (final (run net f w)) = outside w.
Proof.
  intros Hnet Hfault. rewrite run_unfold, Hnet, Hfault. auto.
Qed.

(** X3.  The trace of a cycle: one fetch; then, unless the cycle ends there, one
    [Get], the calls of the callback, and at the end the write under the
    mutex, cut short if [Set] fails. *)
Theorem cycle_trace_shape net f w :
  trace (run net f w) = [EvFetch (URL f)] \/
  exists cs fin,
    trace (run net f w) = EvFetch (URL f) :: EvGet (URL f) :: cs ++ fin /\
    Forall isCallEv cs /\
    (fin = [] \/
     (exists v e, fin = [EvLock; EvSet (URL f) v (Some e)]) \/
     (exists v, fin = [EvLock; EvSet (URL f) v None; EvUnlock])).
Proof.
  rewrite run_unfold.
  destruct (net (URL f)) as [[|zitem rest] [e|]]; cbn [res final trace]; auto.
  right.
  destruct (nextFault (Store (app w))) as [e|]; cbn [res final trace].
  { exists [], []. split; [reflexivity|]. split; [constructor|]. auto. }
  destruct (markers w !! URL f) as [head|]; cbn [res final trace].
  - destruct (scan_calls_only f head (zitem :: rest) (afterGet w)) as [Hcs _].
    destruct (scan f head (zitem :: rest) (afterGet w)) as [r fin tr].
    cbn [trace] in Hcs.
    destruct r as [[]|err|msg|]; cbn [res final trace];
      try (exists tr, []; rewrite app_nil_r; split; [reflexivity|]; split; [exact Hcs|]; auto).
    exists tr, (trace (storeHead f zitem "storing head" fin)).
    split; [reflexivity|]. split; [exact Hcs|].
    destruct (storeHead_cases f zitem "storing head" fin)
      as [[_ ->]|[(e & _ & _ & _ & -> & _)|(_ & _ & _ & -> & _)]]; cbn [trace]; eauto.
  - exists [], (trace (storeHead f zitem "storing" (afterGet w))).
    split; [reflexivity|]. split; [constructor|].
    destruct (storeHead_cases f zitem "storing" (afterGet w))
      as [[_ ->]|[(e & _ & _ & _ & -> & _)|(_ & _ & _ & -> & _)]]; cbn [trace]; eauto.
Qed.


(** X5.  Every error a cycle returns is the error of a collaborator, wrapped
    with the name of the step that failed, and its message is that name, a
    colon and the message of the collaborator: "fetching feed" for the error
    of the parser, "get from store" for the one of [Get], "trigger func" for
    the one of the callback, "storing" for the one of [Set] on a first run
    and "storing head" for the one of [Set] when a head was stored. *)
Theorem cycle_errors_name_their_phase net f w err :
  res (run net f w) = Return err ->
  exists phase e,
    err = Errorf_w phase e /\
    Error err = (phase ++ ": " ++ Error e)%string /\
    ((phase = "fetching feed" /\ snd (net (URL f)) = Some e) \/
     (phase = "get from store" /\ nextFault (Store (app w)) = Some e) \/
     (phase = "trigger func" /\ In e (failures (trace (run net f w)))) \/
     (phase = "storing" /\ markers w !! URL f = None /\
      exists v, In (EvSet (URL f) v (Some e)) (trace (run net f w))) \/
     (phase = "storing head" /\ markers w !! URL f <> None /\
      exists v, In (EvSet (URL f) v (Some e)) (trace (run net f w)))).
Proof.
  rewrite run_unfold.
  destruct (net (URL f)) as [[|zitem rest] [e|]] eqn:Hnet; cbn [res final trace fst snd];
    try discriminate.
  1-2: intros [= <-]; exists "fetching feed", e;
    (split; [reflexivity|]); (split; [reflexivity|]); left; split; reflexivity.
  destruct (nextFault (Store (app w))) as [e|]; cbn [res final trace].
  { intros [= <-]. exists "get from store", e.
    split; [reflexivity|]. split; [reflexivity|]. right. left. split; reflexivity. }
  destruct (markers w !! URL f) as [head|]; cbn [res final trace].
  - destruct (scan_spec f head (zitem :: rest) (afterGet w))
      as (_ & _ & _ & n & _ & _ & _ & Hres).
    destruct (scan f head (zitem :: rest) (afterGet w)) as [r fin tr].
    cbn [res trace] in Hres.
    destruct r as [[]|err'|m|]; cbn [res final trace]; try discriminate.
    + destruct (storeHead_cases f zitem "storing head" fin)
        as [[_ ->]|[(e & _ & _ & -> & -> & _)|(_ & _ & -> & _)]]; try discriminate.
      intros [= <-]. exists "storing head", e. split; [reflexivity|]. split; [reflexivity|].
      do 4 right. split; [reflexivity|]. split; [discriminate|].
      exists (headOf zitem).
      apply in_or_app. right. apply in_or_app. right. simpl. auto.
    + destruct Hres as (e & m & item & _ & _ & -> & Hf).
      intros [= <-]. exists "trigger func", e. split; [reflexivity|]. split; [reflexivity|].
      right. right. left. split; [reflexivity|]. simpl. rewrite Hf. left. reflexivity.
  - destruct (storeHead_cases f zitem "storing" (afterGet w))
      as [[_ ->]|[(e & _ & _ & -> & -> & _)|(_ & _ & -> & _)]]; try discriminate.
    intros [= <-]. exists "storing", e. split; [reflexivity|]. split; [reflexivity|].
    do 3 right. left. split; [reflexivity|]. split; [reflexivity|].
    exists (headOf zitem). simpl. auto.
Qed.

End CycleExtras.

Section CycleSequences.

Context {W : Type}.
Implicit Types (f : Feed W) (w : World W) (head : FeedHead) (items : list Item).

(** A cycle that finds stored the head of the first fetched item calls
    nothing and leaves the store as it is. *)
Lemma run_up_to_date net f w zitem rest :
  net (URL f) = (zitem :: rest, None) ->
  markers w !! URL f = Some (headOf zitem) ->
  calls (trace (run net f w)) = [] /\
  markers (final (run net f w)) = markers w /\
  outside (final (run net f w)) = outside w.
Proof.
  intros Hnet Hget. rewrite run_unfold, Hnet.
  destruct (nextFault (Store (app w))) as [e|]; cbn [res final trace]; [auto|].
  rewrite Hget. cbn [scan headOf Title]. rewrite String.eqb_refl.
  cbn [negb ret res final trace].
  destruct (storeHead_quiet f zitem "storing head" (afterGet w)) as [Hc _].
  rewrite storeHead_outside.
  split; [simpl; exact Hc|]. split; [|reflexivity].
  destruct (storeHead_cases f zitem "storing head" (afterGet w))
    as [[_ ->]|[(e & _ & _ & _ & _ & _ & ->)|(_ & _ & _ & _ & _ & ->)]];
    try reflexivity.
  apply insert_id. exact Hget.
Qed.

(** X6.  After a cycle that returned nil, a cycle over the same answer of the
    network, started on the store that cycle left, calls no callback and
    leaves the store and the state of the callbacks as they are, however
    it ends. *)
Theorem repeated_cycle_is_silent net f w w' :
  res (run net f w) = Val tt ->
  markers w' = markers (final (run net f w)) ->
  calls (trace (run net f w')) = [] /\
  markers (final (run net f w')) = markers w' /\
  outside (final (run net f w')) = outside w'.
Proof.
  intros Hres Hm.
  destruct (success_means_stored net f w Hres)
    as (zitem & rest & pre & Hnet & _ & _ & _ & _ & _ & Hstored).
  apply (run_up_to_date net f w' zitem rest Hnet).
  rewrite Hm, Hstored. apply lookup_insert_eq.
Qed.

(** X7.  After a cycle that returned nil on a fetch whose first item is
    [zitem], a cycle on the store it left that fetches [items'], gets its
    [Get] through and has no failing callback calls the callback on exactly
    the longest prefix of [items'] in which no title is the title of
    [zitem]: what is delivered next is what stands before the title that
    was newest last time. *)
Theorem next_cycle_delivers_up_to_previous_newest
    net net' f w w' zitem rest items' :
  net (URL f) = (zitem :: rest, None) ->
  res (run net f w) = Val tt ->
  markers w' = markers (final (run net f w)) ->
  net' (URL f) = (items', None) ->
  nextFault (Store (app w')) = None ->
  failures (trace (run net' f w')) = [] ->
  exists n,
    n <= length items' /\
    calls (trace (run net' f w')) = take n items' /\
    Forall (fun item => Item_Title item <> Item_Title zitem) (take n items') /\
    (forall item, items' !! n = Some item -> Item_Title item = Item_Title zitem).
Proof.
  intros Hnet Hres Hm Hnet' Hfault Hok.
  destruct (success_means_stored net f w Hres)
    as (z & r & pre & Hnet2 & _ & _ & _ & _ & _ & Hstored).
  assert (z = zitem) as -> by congruence.
  assert (Hget : markers w' !! URL f = Some (headOf zitem)).
  { rewrite Hm, Hstored. apply lookup_insert_eq. }
  destruct (found_cycle net' f w' items' (headOf zitem) Hnet' Hfault Hget)
    as (n & Hn & Hcalls & Hnew & Hstop & _).
  exists n. split; [exact Hn|]. split; [exact Hcalls|]. split; [exact Hnew|].
  exact (Hstop Hok).
Qed.

(** The state of the callbacks after a cycle is what the calls of the cycle
    make of it, one after the other. *)
Lemma run_outside net f w :
  outside (final (run net f w)) =
    fold_left (fun c item => fst (OnNewRecord f item c))
      (calls (trace (run net f w))) (outside w).
Proof.
  rewrite run_unfold.
  destruct (net (URL f)) as [[|zitem rest] [e|]]; cbn [res final trace];
    try reflexivity.
  destruct (nextFault (Store (app w))) as [e|]; cbn [res final trace];
    try reflexivity.
  destruct (markers w !! URL f) as [head|]; cbn [res final trace].
  - destruct (scan_calls_only f head (zitem :: rest) (afterGet w)) as [_ Hout].
    destruct (scan f head (zitem :: rest) (afterGet w)) as [r fin tr].
    cbn [final trace] in Hout. change (outside (afterGet w)) with (outside w) in Hout.
    destruct r as [[]|err|msg|]; cbn [res final trace]; simpl calls;
      try exact Hout.
    destruct (storeHead_quiet f zitem "storing head" fin) as [Hc _].
    rewrite storeHead_outside, calls_app, Hc, app_nil_r. exact Hout.
  - destruct (storeHead_quiet f zitem "storing" (afterGet w)) as [Hc _].
    rewrite storeHead_outside. simpl calls. rewrite Hc. reflexivity.
Qed.


End CycleSequences.

(** * The author and the logging callback *)

Section AuthorFacts.

Variable TrimSpace : string -> string.

(** X9.  [String] of a person returns the name and the e-mail address that
    are not blank (empty once trimmed), as they are, not trimmed, with one
    space between them when both are there, and the empty string when both
    are blank.  On a [Person] made from a nil pointer it panics. *)
Theorem Person_String_keeps_the_fields_that_are_not_blank (g : Person) :
  (TrimSpace (Name g) <> "" -> TrimSpace (Email g) <> "" ->
   Person_String TrimSpace (NewPerson (Some g)) = Val (Name g ++ " " ++ Email g)%string) /\
  (TrimSpace (Name g) <> "" -> TrimSpace (Email g) = "" ->
   Person_String TrimSpace (NewPerson (Some g)) = Val (Name g)) /\
  (TrimSpace (Name g) = "" -> TrimSpace (Email g) <> "" ->
   Person_String TrimSpace (NewPerson (Some g)) = Val (Email g)) /\
  (TrimSpace (Name g) = "" -> TrimSpace (Email g) = "" ->
   Person_String TrimSpace (NewPerson (Some g)) = Val "") /\
  Person_String TrimSpace (NewPerson None) =
    Panic "runtime error: invalid memory address or nil pointer dereference".
Proof.
  unfold Person_String, NewPerson, appendIfNotBlank, Join. cbn [embedded fold_left].
  destruct (String.eqb_spec (TrimSpace (Name g)) "") as [Hn|Hn];
    destruct (String.eqb_spec (TrimSpace (Email g)) "") as [He|He];
    cbn [negb app String.concat];
    repeat split; intros; try reflexivity; try congruence.
Qed.

(** [String] on a person that is there returns a value. *)
Lemma Person_String_value (g : Person) :
  exists s, Person_String TrimSpace (NewPerson (Some g)) = Val s.
Proof. unfold Person_String. cbn [NewPerson embedded]. eauto. Qed.

Lemma LogAuthorAndLink_line (i : Item) (lines : list string) :
  exists author,
    LogAuthorAndLink TrimSpace i lines =
      (lines ++ [Printf_author_link author (Item_Link i)], None) /\
    (Item_Author i = None -> author = "unknown author") /\
    (forall g, Item_Author i = Some g ->
       Person_String TrimSpace (NewPerson (Some g)) = Val author).
Proof.
  unfold LogAuthorAndLink. destruct (Item_Author i) as [g|].
  - destruct (Person_String_value g) as [s Hs]. rewrite Hs.
    exists s. split; [reflexivity|]. split; [discriminate|].
    intros g' [= <-]. exact Hs.
  - exists "unknown author". split; [reflexivity|]. split; [reflexivity|]. discriminate.
Qed.

(** X10.  [LogAuthorAndLink] never returns an error and gives exactly one
    line to the logger, the author, a colon and the link of the item.  The
    author is "unknown author" when the item has none, and what [String]
    returns otherwise (the empty string for an author whose name and e-mail
    address are blank): [String] is only called on a person that is there,
    so it does not panic. *)
Theorem LogAuthorAndLink_logs_one_line_and_succeeds (i : Item) (lines : list string) :
  snd (LogAuthorAndLink TrimSpace i lines) = None /\
  exists author,
    fst (LogAuthorAndLink TrimSpace i lines) =
      lines ++ [(author ++ ": " ++ Item_Link i)%string] /\
    (Item_Author i = None -> author = "unknown author") /\
    (forall g, Item_Author i = Some g ->
       Person_String TrimSpace (NewPerson (Some g)) = Val author).
Proof.
  destruct (LogAuthorAndLink_line i lines) as (author & -> & Hnone & Hsome).
  split; [reflexivity|]. exists author. auto.
Qed.

Lemma logged_lines (items : list Item) (lines : list string) :
  exists new,
    fold_left (fun c item => fst (LogAuthorAndLink TrimSpace item c)) items lines
      = lines ++ new /\
    length new = length items.
Proof.
  revert lines. induction items as [|i items IH]; intros lines; cbn [fold_left].
  - exists []. rewrite app_nil_r. auto.
  - destruct (LogAuthorAndLink_line i lines) as (author & -> & _).
    cbn [fst].
    destruct (IH (lines ++ [Printf_author_link author (Item_Link i)])) as (new & -> & Hlen).
    exists (Printf_author_link author (Item_Link i) :: new).
    rewrite <- app_assoc. split; [reflexivity|]. simpl. rewrite Hlen. reflexivity.
Qed.

End AuthorFacts.

Section NoFailure.

Context {W : Type}.
Implicit Types (f : Feed W) (w : World W) (head : FeedHead) (items : list Item).

(** A callback that never returns an error leaves no failure in the trace
    of a cycle. *)
Lemma scan_without_failure f head items w :
  (forall item c, snd (OnNewRecord f item c) = None) ->
  failures (trace (scan f head items w)) = [].
Proof.
  intros Hnever. revert w. induction items as [|item rest IH]; intros w; simpl.
  - reflexivity.
  - destruct (negb (String.eqb (Title head) (Item_Title item))); [|reflexivity].
    unfold bind, call. specialize (Hnever item (outside w)).
    destruct (OnNewRecord f item (outside w)) as [c [e|]]; simpl in Hnever;
      [discriminate|].
    simpl. apply IH.
Qed.

Lemma run_without_failure net f w :
  (forall item c, snd (OnNewRecord f item c) = None) ->
  failures (trace (run net f w)) = [].
Proof.
  intros Hnever. rewrite run_unfold.
  destruct (net (URL f)) as [[|zitem rest] [e|]]; cbn [res final trace];
    try reflexivity.
  destruct (nextFault (Store (app w))) as [e|]; cbn [res final trace];
    try reflexivity.
  destruct (markers w !! URL f) as [head|]; cbn [res final trace].
  - pose proof (scan_without_failure f head (zitem :: rest) (afterGet w) Hnever) as Hf.
    destruct (scan f head (zitem :: rest) (afterGet w)) as [r fin tr].
    cbn [trace] in Hf.
    destruct r as [[]|err|msg|]; cbn [res final trace]; simpl failures;
      try exact Hf.
    destruct (storeHead_quiet f zitem "storing head" fin) as [_ Hq].
    rewrite failures_app, Hf, Hq. reflexivity.
  - destruct (storeHead_quiet f zitem "storing" (afterGet w)) as [_ Hq].
    simpl failures. exact Hq.
Qed.

End NoFailure.

(** X11.  In a cycle of a feed whose callback is [LogAuthorAndLink] no call
    of the callback fails; the cycle adds to the lines of the logger one
    line per call and keeps the lines that were there; and it returns nil
    whenever the feed is not empty, the store does not fail and the mutex
    is free. *)
Theorem logging_cycle_never_fails_in_the_callback
    (TrimSpace : string -> string) net (f : Feed (list string)) w :
  OnNewRecord f = LogAuthorAndLink TrimSpace ->
  failures (trace (run net f w)) = [] /\
  (exists new,
     outside (final (run net f w)) = outside w ++ new /\
     length new = length (calls (trace (run net f w)))) /\
  (forall zitem rest,
     net (URL f) = (zitem :: rest, None) ->
     healthy (Store (app w)) -> Mutex (app w) = false ->
     res (run net f w) = Val tt).
Proof.
  intros Hcb.
  assert (Hok : failures (trace (run net f w)) = []).
  { apply run_without_failure. intros item c. rewrite Hcb.
    destruct (LogAuthorAndLink_line TrimSpace item c) as (author & -> & _). reflexivity. }
  split; [exact Hok|]. split.
  - rewrite run_outside, Hcb. apply logged_lines.
  - intros zitem rest Hnet Hh Hmu.
    apply (healthy_cycle_succeeds net f w zitem rest); assumption.
Qed.

(** * The goroutine of a feed *)

Section WorkerFacts.

Context {W : Type}.
Implicit Types (f : Feed W) (w : World W).
Implicit Types (net : string -> list Item * option error).
Implicit Types (ticks more : list (string -> list Item * option error)).

Lemma onTicks_cons f net ticks w :
  onTicks f (net :: ticks) w =
  match res (run net f w) with
  | Val _ =>
      let o := onTicks f ticks (final (run net f w)) in
      mkOut (res o) (final o) (trace (run net f w) ++ trace o)
  | _ => run net f w
  end.
Proof.
  cbn [onTicks]. unfold bind, call_run, return_err.
  destruct (run net f w) as [[[]|e|msg|] fin tr]; cbn [res final trace];
    rewrite ?app_nil_r; reflexivity.
Qed.

Lemma worker_unfold net ticks f w :
  worker net ticks f w =
  match res (run net f w) with
  | Val _ =>
      if (RefreshPeriod f <=? 0)%Z then
        mkOut (Panic "non-positive interval for NewTicker")
          (final (run net f w)) (trace (run net f w))
      else
        let o := onTicks f ticks (final (run net f w)) in
        mkOut (res o) (final o) (trace (run net f w) ++ trace o)
  | _ => run net f w
  end.
Proof.
  unfold worker, bind at 1, call_run, return_err.
  destruct (run net f w) as [[[]|e|msg|] fin tr]; cbn [res final trace];
    rewrite ?app_nil_r; try reflexivity.
  unfold bind at 1, NewTicker.
  destruct (RefreshPeriod f <=? 0)%Z; cbn [panic ret res final trace];
    rewrite ?app_nil_r; [reflexivity|].
  unfold bind, ret. cbn [res final trace].
  destruct (onTicks f ticks fin) as [[[]|e|msg|] fin' tr']; cbn [res final trace];
    rewrite ?app_nil_r; reflexivity.
Qed.

Lemma fetches_app (tr1 tr2 : list Event) :
  fetches (tr1 ++ tr2) = fetches tr1 + fetches tr2.
Proof.
  induction tr1 as [|ev tr1 IH]; [reflexivity|].
  destruct ev; simpl; rewrite ?IH; reflexivity.
Qed.

(** The loop over the ticks, when it gets to the end of them. *)
Lemma onTicks_done f ticks w :
  res (onTicks f ticks w) = Val tt ->
  fetches (trace (onTicks f ticks w)) = length ticks /\
  (Mutex (app w) = false -> Mutex (app (final (onTicks f ticks w))) = false) /\
  (ticks = [] -> final (onTicks f ticks w) = w) /\
  (forall net zitem rest,
     last ticks = Some net -> net (URL f) = (zitem :: rest, None) ->
     markers (final (onTicks f ticks w)) !! URL f = Some (headOf zitem)) /\
  Forall (fun net => exists zitem rest, net (URL f) = (zitem :: rest, None)) ticks.
Proof.
  revert w. induction ticks as [|net ticks IH]; intros w.
  - intros _. cbn. repeat split; auto. discriminate.
  - rewrite onTicks_cons.
    destruct (res (run net f w)) as [[]|e|msg|] eqn:Hrun;
      try (rewrite Hrun; discriminate).
    cbn [res final trace]. intros Hres.
    destruct (IH _ Hres) as (Hfetch & Hmu & Hnil & Hlast & Hall).
    destruct (success_means_stored net f w Hrun)
      as (zitem & rest & pre & Hnet & _ & _ & _ & _ & Hfree & Hstored).
    split; [rewrite fetches_app, run_fetches, Hfetch; reflexivity|].
    split; [intros _; apply Hmu; exact Hfree|].
    split; [discriminate|].
    split.
    + intros net' z r Hl Hn'. destruct ticks as [|net2 ticks'].
      * cbn in Hl. injection Hl as <-. rewrite (Hnil eq_refl), Hstored.
        assert (z = zitem) as -> by congruence. apply lookup_insert_eq.
      * apply (Hlast net' z r); [|exact Hn'].
        rewrite last_cons in Hl. destruct (last (net2 :: ticks')) eqn:Hl2; [exact Hl|].
        apply last_None in Hl2. discriminate.
    + constructor; [eauto|exact Hall].
Qed.

(** Once the loop has ended otherwise than by running out of ticks, more
    ticks change nothing. *)
Lemma onTicks_stable f ticks more w :
  res (onTicks f ticks w) <> Val tt ->
  onTicks f (ticks ++ more) w = onTicks f ticks w.
Proof.
  revert w. induction ticks as [|net ticks IH]; intros w.
  - intros H. exfalso. apply H. reflexivity.
  - change ((net :: ticks) ++ more) with (net :: (ticks ++ more)).
    rewrite !onTicks_cons.
    destruct (res (run net f w)) as [[]|e|msg|]; try reflexivity.
    cbn [res]. intros H. rewrite (IH _ H). reflexivity.
Qed.


Lemma onTicks_blocked f ticks w :
  Mutex (app w) = false -> res (onTicks f ticks w) <> Blocked.
Proof.
  revert w. induction ticks as [|net ticks IH]; intros w Hmu.
  - discriminate.
  - rewrite onTicks_cons.
    destruct (res (run net f w)) as [[]|e|m|] eqn:Hrun; try (rewrite Hrun; discriminate).
    + cbn [res]. apply IH.
      destruct (success_means_stored net f w Hrun)
        as (zitem & rest & pre & _ & _ & _ & _ & _ & Hfree & _). exact Hfree.
    + intros _. apply run_blocked in Hrun. destruct Hrun as [Hheld _]. congruence.
Qed.

Lemma onTicks_frame f ticks w k :
  k <> URL f -> markers (final (onTicks f ticks w)) !! k = markers w !! k.
Proof.
  intros Hk. revert w. induction ticks as [|net ticks IH]; intros w.
  - reflexivity.
  - assert (Hrun : markers (final (run net f w)) !! k = markers w !! k).
    { destruct (run_markers net f w) as [->|(z & r & _ & ->)]; [reflexivity|].
      apply lookup_insert_ne. congruence. }
    rewrite onTicks_cons.
    destruct (res (run net f w)) as [[]|e|m|]; try exact Hrun.
    cbn [final]. rewrite IH. exact Hrun.
Qed.

(** X12.  If the first cycle of the goroutine does not return nil, the
    goroutine ends as that cycle ends, with its error, its trace and its
    world: no ticker is made (whatever the refresh period) and no tick
    leads to another fetch. *)
Theorem worker_fails_early net ticks f w :
  res (run net f w) <> Val tt ->
  worker net ticks f w = run net f w.
Proof.
  intros H. rewrite worker_unfold.
  destruct (res (run net f w)) as [[]|e|msg|]; try reflexivity.
  exfalso. apply H. reflexivity.
Qed.

(** X13.  With a refresh period that is zero or negative, a goroutine whose
    first cycle returns nil panics in [time.NewTicker], having done that
    one cycle and nothing more. *)
Theorem worker_panics_on_a_period_that_is_not_positive net ticks f w :
  res (run net f w) = Val tt ->
  (RefreshPeriod f <= 0)%Z ->
  res (worker net ticks f w) = Panic "non-positive interval for NewTicker" /\
  trace (worker net ticks f w) = trace (run net f w) /\
  final (worker net ticks f w) = final (run net f w).
Proof.
  intros Hres Hd. rewrite worker_unfold, Hres.
  apply Z.leb_le in Hd. rewrite Hd. auto.
Qed.


(** X15.  Once the goroutine has ended otherwise than by running out of
    ticks (an error, a panic, a wait for the mutex), ticks that come later
    change nothing: it fetches, calls and writes no more. *)
Theorem worker_stops_at_the_first_failure net ticks more f w :
  res (worker net ticks f w) <> Val tt ->
  worker net (ticks ++ more) f w = worker net ticks f w.
Proof.
  rewrite !worker_unfold.
  destruct (res (run net f w)) as [[]|e|msg|]; try reflexivity.
  destruct (RefreshPeriod f <=? 0)%Z; [reflexivity|].
  cbn [res]. intros H. rewrite (onTicks_stable f ticks more _ H). reflexivity.
Qed.

(** X16.  If the goroutine gets through all its ticks, it has fetched once
    when it started and once per tick, every answer of the network was a
    feed with at least one item, the refresh period is positive, the mutex
    is free, and the store holds for the feed the head of the first item of
    the last answer. *)
Theorem worker_at_the_end_of_the_ticks net ticks f w :
  res (worker net ticks f w) = Val tt ->
  fetches (trace (worker net ticks f w)) = S (length ticks) /\
  Mutex (app (final (worker net ticks f w))) = false /\
  (0 < RefreshPeriod f)%Z /\
  Forall (fun net' => exists zitem rest, net' (URL f) = (zitem :: rest, None))
    (net :: ticks) /\
  (forall zitem rest,
     List.last ticks net (URL f) = (zitem :: rest, None) ->
     markers (final (worker net ticks f w)) !! URL f = Some (headOf zitem)).
Proof.
  rewrite worker_unfold.
  destruct (res (run net f w)) as [[]|e|msg|] eqn:Hrun; try (rewrite Hrun; discriminate).
  destruct (Z.leb_spec (RefreshPeriod f) 0) as [Hle|Hpos]; [discriminate|].
  cbn [res final trace]. intros Hres.
  destruct (onTicks_done f ticks _ Hres) as (Hfetch & Hmu & Hnil & Hlast & Hall).
  destruct (success_means_stored net f w Hrun)
    as (z0 & r0 & pre & Hnet & _ & _ & _ & _ & Hfree & Hstored).
  split; [rewrite fetches_app, run_fetches, Hfetch; reflexivity|].
  split; [apply Hmu; exact Hfree|].
  split; [exact Hpos|].
  split; [constructor; [eauto|exact Hall]|].
  intros zitem rest Hl.
  destruct ticks as [|net1 ticks'].
  - cbn in Hl. rewrite (Hnil eq_refl), Hstored.
    assert (z0 = zitem) as -> by congruence. apply lookup_insert_eq.
  - destruct (last (net1 :: ticks')) as [netl|] eqn:Hl2.
    + apply (Hlast netl zitem rest eq_refl).
      assert (Heq : List.last (net1 :: ticks') net = netl).
      { clear -Hl2. revert net1 Hl2. induction ticks' as [|n2 t IH]; intros net1 Hl2.
        - cbn in Hl2. injection Hl2 as <-. reflexivity.
        - rewrite last_cons in Hl2. change (List.last (net1 :: n2 :: t) net)
            with (List.last (n2 :: t) net).
          destruct (last (n2 :: t)) eqn:Hl3.
          + apply IH. congruence.
          + apply last_None in Hl3. discriminate. }
      rewrite <- Heq. exact Hl.
    + apply last_None in Hl2. discriminate.
Qed.

(** X17.  A goroutine that starts with a free mutex, and is alone with it,
    never waits for the mutex, over any number of cycles: a cycle that
    leaves the mutex held has returned an error, and that ends the
    goroutine. *)
Theorem worker_alone_never_waits_for_the_mutex net ticks f w :
  Mutex (app w) = false -> res (worker net ticks f w) <> Blocked.
Proof.
  intros Hmu. rewrite worker_unfold.
  destruct (res (run net f w)) as [[]|e|m|] eqn:Hrun; try (rewrite Hrun; discriminate).
  - destruct (RefreshPeriod f <=? 0)%Z; [discriminate|].
    cbn [res]. apply onTicks_blocked.
    destruct (success_means_stored net f w Hrun)
      as (zitem & rest & pre & _ & _ & _ & _ & _ & Hfree & _). exact Hfree.
  - intros _. apply run_blocked in Hrun. destruct Hrun as [Hheld _]. congruence.
Qed.

(** X18.  Whatever the goroutine of a feed does, and however it ends, the
    store holds under every key other than the URL of the feed what it held
    when the goroutine started. *)
Theorem worker_leaves_other_feeds_heads net ticks f w k :
  k <> URL f ->
  markers (final (worker net ticks f w)) !! k = markers w !! k.
Proof.
  intros Hk.
  assert (Hrun : markers (final (run net f w)) !! k = markers w !! k).
  { destruct (run_markers net f w) as [->|(z & r & _ & ->)]; [reflexivity|].
    apply lookup_insert_ne. congruence. }
  rewrite worker_unfold.
  destruct (res (run net f w)) as [[]|e|m|]; try exact Hrun.
  destruct (RefreshPeriod f <=? 0)%Z; [exact Hrun|].
  cbn [final]. rewrite onTicks_frame by exact Hk. exact Hrun.
Qed.

End WorkerFacts.

(** * The properties above, at concrete inputs *)

Import SampleLog.

Lemma fetch_error_ends_the_cycle_at_once_witness :
  down (URL (feed note)) = ([], Some disk) /\
  res (run down (feed note) (world {[url := headOf A]} []))
    = Return (Errorf_w "fetching feed" disk) /\
  final (run down (feed note) (world {[url := headOf A]} []))
    = world {[url := headOf A]} [].
Proof.
  assert (H1 : down (URL (feed note)) = ([], Some disk)) by reflexivity.
  split; [exact H1|].
  destruct (fetch_error_ends_the_cycle_at_once down (feed note)
              (world {[url := headOf A]} []) [] disk H1) as (Hres & _ & Hfin).
  split; [exact Hres|exact Hfin].
Defined.

Lemma Get_error_ends_the_cycle_before_any_call_witness :
  serving [C; B; A] (URL (feed note)) = ([C; B; A], None) /\
  nextFault (Store (app (world {[url := headOf A]} [Some disk]))) = Some disk /\
  res (run (serving [C; B; A]) (feed note) (world {[url := headOf A]} [Some disk]))
    = Return (Errorf_w "get from store" disk) /\
  trace (run (serving [C; B; A]) (feed note) (world {[url := headOf A]} [Some disk]))
    = [EvFetch (URL (feed note)); EvGet (URL (feed note))].
Proof.
  assert (H1 : serving [C; B; A] (URL (feed note)) = ([C; B; A], None)) by reflexivity.
  assert (H2 : nextFault (Store (app (world {[url := headOf A]} [Some disk])))
               = Some disk) by reflexivity.
  split; [exact H1|]. split; [exact H2|].
  destruct (Get_error_ends_the_cycle_before_any_call (serving [C; B; A]) (feed note)
              (world {[url := headOf A]} [Some disk]) C [B; A] disk H1 H2)
    as (Hres & Htr & _).
  split; [exact Hres|exact Htr].
Defined.


Lemma cycle_errors_name_their_phase_witness :
  res (run (serving [C; B; A]) (feed note) (world ∅ [None; Some disk]))
    = Return (Errorf_w "storing" disk) /\
  exists phase e,
    Errorf_w "storing" disk = Errorf_w phase e /\
    Error (Errorf_w "storing" disk) = (phase ++ ": " ++ Error e)%string.
Proof.
  assert (H1 : res (run (serving [C; B; A]) (feed note) (world ∅ [None; Some disk]))
               = Return (Errorf_w "storing" disk)) by (vm_compute; reflexivity).
  split; [exact H1|].
  destruct (cycle_errors_name_their_phase (serving [C; B; A]) (feed note)
              (world ∅ [None; Some disk]) (Errorf_w "storing" disk) H1)
    as (phase & e & Herr & Hmsg & _).
  exists phase, e. split; [exact Herr|exact Hmsg].
Defined.

Lemma repeated_cycle_is_silent_witness :
  res (run (serving [C; B; A]) (feed note) (world {[url := headOf A]} [])) = Val tt /\
  calls (trace (run (serving [C; B; A]) (feed note)
                    (final (run (serving [C; B; A]) (feed note)
                                (world {[url := headOf A]} []))))) = [].
Proof.
  assert (H1 : res (run (serving [C; B; A]) (feed note)
                        (world {[url := headOf A]} [])) = Val tt)
    by (vm_compute; reflexivity).
  split; [exact H1|].
  destruct (repeated_cycle_is_silent (serving [C; B; A]) (feed note)
              (world {[url := headOf A]} [])
              (final (run (serving [C; B; A]) (feed note)
                          (world {[url := headOf A]} []))) H1 eq_refl)
    as (Hcalls & _).
  exact Hcalls.
Defined.

Lemma next_cycle_delivers_up_to_previous_newest_witness :
  serving [A] (URL (feed note)) = ([A], None) /\
  res (run (serving [A]) (feed note) (world ∅ [])) = Val tt /\
  serving [C; B; A; X] (URL (feed note)) = ([C; B; A; X], None) /\
  nextFault (Store (app (final (run (serving [A]) (feed note) (world ∅ []))))) = None /\
  failures (trace (run (serving [C; B; A; X]) (feed note)
                       (final (run (serving [A]) (feed note) (world ∅ []))))) = [] /\
  exists n,
    n <= length [C; B; A; X] /\
    calls (trace (run (serving [C; B; A; X]) (feed note)
                      (final (run (serving [A]) (feed note) (world ∅ [])))))
      = take n [C; B; A; X].
Proof.
  assert (H1 : serving [A] (URL (feed note)) = ([A], None)) by reflexivity.
  assert (H2 : res (run (serving [A]) (feed note) (world ∅ [])) = Val tt)
    by (vm_compute; reflexivity).
  assert (H3 : serving [C; B; A; X] (URL (feed note)) = ([C; B; A; X], None))
    by reflexivity.
  assert (H4 : nextFault (Store (app (final (run (serving [A]) (feed note)
                                                 (world ∅ []))))) = None)
    by (vm_compute; reflexivity).
  assert (H5 : failures (trace (run (serving [C; B; A; X]) (feed note)
                 (final (run (serving [A]) (feed note) (world ∅ []))))) = [])
    by (vm_compute; reflexivity).
  repeat (split; [assumption|]).
  destruct (next_cycle_delivers_up_to_previous_newest (serving [A])
              (serving [C; B; A; X]) (feed note) (world ∅ [])
              (final (run (serving [A]) (feed note) (world ∅ [])))
              A [] [C; B; A; X] H1 H2 eq_refl H3 H4 H5) as (n & Hn & Hcalls & _).
  exists n. split; [exact Hn|exact Hcalls].
Defined.

Lemma Person_String_keeps_the_fields_that_are_not_blank_witness :
  trim (Name alice) <> "" /\ trim (Email alice) <> "" /\
  Person_String trim (NewPerson (Some alice)) = Val "Alice alice@example.org" /\
  trim (Name nameless) = "" /\ trim (Email nameless) = "" /\
  Person_String trim (NewPerson (Some nameless)) = Val "".
Proof.
  assert (H1 : trim (Name alice) <> "") by (vm_compute; discriminate).
  assert (H2 : trim (Email alice) <> "") by (vm_compute; discriminate).
  assert (H3 : trim (Name nameless) = "") by (vm_compute; reflexivity).
  assert (H4 : trim (Email nameless) = "") by (vm_compute; reflexivity).
  split; [exact H1|]. split; [exact H2|].
  split; [exact (proj1 (Person_String_keeps_the_fields_that_are_not_blank trim alice) H1 H2)|].
  split; [exact H3|]. split; [exact H4|].
  destruct (Person_String_keeps_the_fields_that_are_not_blank trim nameless)
    as (_ & _ & _ & Hblank & _).
  exact (Hblank H3 H4).
Defined.

Lemma logging_cycle_never_fails_in_the_callback_witness :
  OnNewRecord (logging 60%Z) = LogAuthorAndLink trim /\
  failures (trace (run (serving [C_signed; B; A]) (logging 60%Z)
                       (world {[url := headOf A]} []))) = [].
Proof.
  assert (H1 : OnNewRecord (logging 60%Z) = LogAuthorAndLink trim) by reflexivity.
  split; [exact H1|].
  destruct (logging_cycle_never_fails_in_the_callback trim (serving [C_signed; B; A])
              (logging 60%Z) (world {[url := headOf A]} []) H1) as (Hok & _).
  exact Hok.
Defined.

Lemma worker_fails_early_witness :
  res (run down (logging 60%Z) (world ∅ [])) <> Val tt /\
  worker down [serving [A]; serving [B; A]] (logging 60%Z) (world ∅ [])
    = run down (logging 60%Z) (world ∅ []).
Proof.
  assert (H1 : res (run down (logging 60%Z) (world ∅ [])) <> Val tt)
    by (vm_compute; discriminate).
  split; [exact H1|].
  exact (worker_fails_early down [serving [A]; serving [B; A]] (logging 60%Z)
           (world ∅ []) H1).
Defined.

Lemma worker_panics_on_a_period_that_is_not_positive_witness :
  res (run (serving [A]) (logging 0%Z) (world ∅ [])) = Val tt /\
  (RefreshPeriod (logging 0%Z) <= 0)%Z /\
  res (worker (serving [A]) [serving [B; A]] (logging 0%Z) (world ∅ []))
    = Panic "non-positive interval for NewTicker".
Proof.
  assert (H1 : res (run (serving [A]) (logging 0%Z) (world ∅ [])) = Val tt)
    by (vm_compute; reflexivity).
  assert (H2 : (RefreshPeriod (logging 0%Z) <= 0)%Z) by (vm_compute; discriminate).
  split; [exact H1|]. split; [exact H2|].
  destruct (worker_panics_on_a_period_that_is_not_positive (serving [A])
              [serving [B; A]] (logging 0%Z) (world ∅ []) H1 H2) as (Hres & _).
  exact Hres.
Defined.


Lemma worker_stops_at_the_first_failure_witness :
  res (worker (serving [A]) [down] (logging 60%Z) (world ∅ [])) <> Val tt /\
  worker (serving [A]) ([down] ++ [serving [B; A]]) (logging 60%Z) (world ∅ [])
    = worker (serving [A]) [down] (logging 60%Z) (world ∅ []).
Proof.
  assert (H1 : res (worker (serving [A]) [down] (logging 60%Z) (world ∅ [])) <> Val tt)
    by (vm_compute; discriminate).
  split; [exact H1|].
  exact (worker_stops_at_the_first_failure (serving [A]) [down] [serving [B; A]]
           (logging 60%Z) (world ∅ []) H1).
Defined.

Lemma worker_at_the_end_of_the_ticks_witness :
  res (worker (serving [A]) [serving [B; A]; serving [C_signed; B; A]]
              (logging 60%Z) (world ∅ [])) = Val tt /\
  fetches (trace (worker (serving [A]) [serving [B; A]; serving [C_signed; B; A]]
                         (logging 60%Z) (world ∅ []))) = 3 /\
  markers (final (worker (serving [A]) [serving [B; A]; serving [C_signed; B; A]]
                         (logging 60%Z) (world ∅ []))) !! URL (logging 60%Z)
    = Some (headOf C_signed).
Proof.
  assert (H1 : res (worker (serving [A]) [serving [B; A]; serving [C_signed; B; A]]
                           (logging 60%Z) (world ∅ [])) = Val tt)
    by (vm_compute; reflexivity).
  split; [exact H1|].
  destruct (worker_at_the_end_of_the_ticks (serving [A])
              [serving [B; A]; serving [C_signed; B; A]] (logging 60%Z) (world ∅ []) H1)
    as (Hfetch & _ & _ & _ & Hhead).
  split; [exact Hfetch|]. exact (Hhead C_signed [B; A] eq_refl).
Defined.

Lemma worker_alone_never_waits_for_the_mutex_witness :
  Mutex (app (world ∅ [None; Some disk])) = false /\
  res (worker (serving [A]) [serving [B; A]] (logging 60%Z) (world ∅ [None; Some disk]))
    <> Blocked.
Proof.
  assert (H1 : Mutex (app (world ∅ [None; Some disk])) = false) by reflexivity.
  split; [exact H1|].
  exact (worker_alone_never_waits_for_the_mutex (serving [A]) [serving [B; A]]
           (logging 60%Z) (world ∅ [None; Some disk]) H1).
Defined.

Lemma worker_leaves_other_feeds_heads_witness :
  other <> URL (logging 60%Z) /\
  markers (final (worker (serving [A]) [serving [B; A]] (logging 60%Z)
                         (world {[other := headOf X]} []))) !! other
    = markers (world {[other := headOf X]} []) !! other.
Proof.
  assert (H1 : other <> URL (logging 60%Z)) by (vm_compute; discriminate).
  split; [exact H1|].
  exact (worker_leaves_other_feeds_heads (serving [A]) [serving [B; A]] (logging 60%Z)
           (world {[other := headOf X]} []) other H1).
Defined.
